(** * find_river_map: country resolution, mainland extraction, river size classes

    A shallow embedding of the data-shaping core of [app.py]
    ([generate_country_map], [plot_stylish_map]) and of the script [rivers.py],
    which carries the same three steps at module level.

    Numbers are exact rationals ([Q]) where only order and maxima matter;
    where the rounding of a quotient decides the outcome, at the edges of the
    size bins, the same lines are also given over IEEE doubles ([float]).
    NaN areas are outside the model.  Text is ASCII, held in [string]:
    [lower] and [strip] are Python's on ASCII text only.  The third-party
    stack (pyproj's coordinate transform, GEOS area, length and union,
    Python's [re] beyond a small fragment) enters as section variables. *)

From Stdlib Require Import String Ascii List Bool Arith NArith ZArith.
From Stdlib Require Import QArith Qabs Lia Lqa Permutation Floats.
Import ListNotations.

Set Warnings "-register-all,-inexact-float".
Local Open Scope string_scope.
Local Open Scope list_scope.

(* ------------------------------------------------------------------ *)
(** ** Python strings: [strip], [lower], and [re.search] on a fragment *)

(** [str.isspace] on ASCII: TAB..CR, FS..US and SPACE. *)
Definition is_space (c : ascii) : bool :=
  let n := N_of_ascii c in
  ((9 <=? n) && (n <=? 13) || (28 <=? n) && (n <=? 32))%N.

Fixpoint lstrip (s : string) : string :=
  match s with
  | EmptyString => EmptyString
  | String c r => if is_space c then lstrip r else s
  end.

Fixpoint rstrip (s : string) : string :=
  match s with
  | EmptyString => EmptyString
  | String c r =>
      match rstrip r with
      | EmptyString => if is_space c then EmptyString else String c EmptyString
      | r' => String c r'
      end
  end.

(** [s.strip()] *)
Definition strip (s : string) : string := rstrip (lstrip s).

Definition lower_char (c : ascii) : ascii :=
  let n := N_of_ascii c in
  if ((65 <=? n) && (n <=? 90))%N then ascii_of_N (n + 32) else c.

(** [s.lower()] *)
Fixpoint lower (s : string) : string :=
  match s with
  | EmptyString => EmptyString
  | String c r => String (lower_char c) (lower r)
  end.

(** The special characters of Python's [re] syntax. *)
Definition is_meta (c : ascii) : bool :=
  existsb (Ascii.eqb c)
    (list_ascii_of_string ".^$*+?{}[]\|()").

Definition is_dot (c : ascii) : bool := Ascii.eqb c ".".

Definition newline : ascii := ascii_of_N 10.

(** Patterns made of ordinary characters and the wildcard [.] only. *)
Fixpoint simple_pattern (pat : string) : bool :=
  match pat with
  | EmptyString => true
  | String p r => (is_dot p || negb (is_meta p)) && simple_pattern r
  end.

(** Patterns with no special character at all: they stand for themselves. *)
Fixpoint literal_pattern (pat : string) : bool :=
  match pat with
  | EmptyString => true
  | String p r => negb (is_meta p) && literal_pattern r
  end.

(** One pattern position against one character: [.] is any character but a
    newline (no DOTALL flag), anything else is itself. *)
Definition match_char (p c : ascii) : bool :=
  if is_dot p then negb (Ascii.eqb c newline) else Ascii.eqb p c.

Fixpoint match_here (pat s : string) : bool :=
  match pat with
  | EmptyString => true
  | String p pr =>
      match s with
      | EmptyString => false
      | String c sr => match_char p c && match_here pr sr
      end
  end.

(** [re.search] for a simple pattern: a match starting at some offset. *)
Fixpoint search_simple (pat s : string) : bool :=
  match_here pat s ||
  match s with
  | EmptyString => false
  | String _ r => search_simple pat r
  end.

(** Plain substring test, the reading the spec gives of "contains". *)
Fixpoint prefixb (p s : string) : bool :=
  match p with
  | EmptyString => true
  | String a pr =>
      match s with
      | EmptyString => false
      | String b sr => Ascii.eqb a b && prefixb pr sr
      end
  end.

Fixpoint substringb (p s : string) : bool :=
  prefixb p s ||
  match s with
  | EmptyString => false
  | String _ r => substringb p r
  end.

(* ------------------------------------------------------------------ *)
(** ** Geometries and frames *)

Definition coord : Type := (Q * Q)%type.

Record PolygonData : Type := mkPolygon {
  shell : list coord;
  holes : list (list coord)
}.

(** shapely's geometry classes.  A [MultiPolygon] holds polygons only; a
    [GeometryCollection] holds anything, collections included. *)
Inductive Geometry : Type :=
| Point (c : coord)
| LineString (cs : list coord)
| Polygon (p : PolygonData)
| MultiPoint (cs : list coord)
| MultiLineString (ls : list (list coord))
| MultiPolygon (ps : list PolygonData)
| GeometryCollection (gs : list Geometry).

(** [geom.geom_type] *)
Definition geom_type (g : Geometry) : string :=
  match g with
  | Point _ => "Point"
  | LineString _ => "LineString"
  | Polygon _ => "Polygon"
  | MultiPoint _ => "MultiPoint"
  | MultiLineString _ => "MultiLineString"
  | MultiPolygon _ => "MultiPolygon"
  | GeometryCollection _ => "GeometryCollection"
  end.

(** [geom.geoms] of the multi-part classes (single geometries have none). *)
Definition geoms (g : Geometry) : list Geometry :=
  match g with
  | MultiPoint cs => map Point cs
  | MultiLineString ls => map LineString ls
  | MultiPolygon ps => map Polygon ps
  | GeometryCollection gs => gs
  | _ => []
  end.

Definition map_polygon (f : coord -> coord) (p : PolygonData) : PolygonData :=
  mkPolygon (map f (shell p)) (map (map f) (holes p)).

(** A coordinate-wise transform keeps the class and the part structure. *)
Fixpoint map_coords (f : coord -> coord) (g : Geometry) : Geometry :=
  match g with
  | Point c => Point (f c)
  | LineString cs => LineString (map f cs)
  | Polygon p => Polygon (map_polygon f p)
  | MultiPoint cs => MultiPoint (map f cs)
  | MultiLineString ls => MultiLineString (map (map f) ls)
  | MultiPolygon ps => MultiPolygon (map (map_polygon f) ps)
  | GeometryCollection gs => GeometryCollection (map (map_coords f) gs)
  end.

(** A coordinate reference system, by EPSG code. *)
Definition CRS : Type := N.

Definition EPSG_3857 : CRS := 3857%N.

(** A feature: its attribute record and its geometry ([None] is a null
    geometry). *)
Record Feature (A : Type) : Type := mkFeature {
  attrs : A;
  geometry : option Geometry
}.
Arguments mkFeature {A} _ _.
Arguments attrs {A} _.
Arguments geometry {A} _.

Record GeoDataFrame (A : Type) : Type := mkFrame {
  crs : CRS;
  rows : list (Feature A)
}.
Arguments mkFrame {A} _ _.
Arguments crs {A} _.
Arguments rows {A} _.

(** [gdf.empty] *)
Definition empty {A} (gdf : GeoDataFrame A) : bool :=
  match rows gdf with [] => true | _ => false end.

(** [gdf[mask]] with the mask given row by row. *)
Definition select {A} (keep : Feature A -> bool) (gdf : GeoDataFrame A)
  : GeoDataFrame A :=
  mkFrame (crs gdf) (filter keep (rows gdf)).

(** The attribute columns of the countries dataset that the code reads. *)
Record Country : Type := mkCountry {
  SOVEREIGNT : string;
  TYPE : string
}.

(* ------------------------------------------------------------------ *)
(** ** Country resolution ([generate_country_map], first half) *)

Inductive outcome (A : Type) : Type :=
| Selected (a : A)
| NotFoundError          (* the [ValueError] "Country ... not found" *)
| PatternError.          (* [re.error] out of [str.contains] *)
Arguments Selected {A} _.
Arguments NotFoundError {A}.
Arguments PatternError {A}.

Section Resolver.

(** [re.compile] followed by [search], for patterns beyond the simple
    fragment; [None] is a pattern that does not compile. *)
Variable re_compile : string -> option (string -> bool).

(** [Series.str.contains(pat)]: pandas' default is [regex=True], so [pat]
    is compiled once as a regular expression and searched in every value. *)
Definition str_contains (pat : string) : option (string -> bool) :=
  if simple_pattern pat then Some (search_simple pat) else re_compile pat.

Definition not_dependency (f : Feature Country) : bool :=
  negb (String.eqb (TYPE (attrs f)) "Dependency").

Definition exact_match (country_input : string) (f : Feature Country) : bool :=
  String.eqb (lower (SOVEREIGNT (attrs f))) (lower country_input)
  && not_dependency f.

Definition resolve (country_gdf : GeoDataFrame Country) (country_name : string)
  : outcome (GeoDataFrame Country) :=
  let country_input := strip country_name in
  let selected_country := select (exact_match country_input) country_gdf in
  if empty selected_country then
    match str_contains (lower country_input) with
    | None => PatternError
    | Some found =>
        let mask f := found (lower (SOVEREIGNT (attrs f))) in
        let selected_country :=
          select (fun f => mask f && not_dependency f) country_gdf in
        if empty selected_country then NotFoundError
        else Selected selected_country
    end
  else Selected selected_country.

End Resolver.

(* ------------------------------------------------------------------ *)
(** ** Mainland extraction ([generate_country_map], second half) *)

(** [mainland_gdf] is either the selection itself (fallback) or a fresh frame
    with a geometry column only. *)
Inductive Region : Type :=
| FullSelection (gdf : GeoDataFrame Country)
| GeometryOnly (gdf : GeoDataFrame unit).

Definition region_crs (r : Region) : CRS :=
  match r with
  | FullSelection gdf => crs gdf
  | GeometryOnly gdf => crs gdf
  end.

Definition region_geometries (r : Region) : list (option Geometry) :=
  match r with
  | FullSelection gdf => map geometry (rows gdf)
  | GeometryOnly gdf => map geometry (rows gdf)
  end.

Record Mainland : Type := mkMainland {
  mainland_mask : option Geometry;
  mainland_gdf : Region
}.

Definition Qltb (a b : Q) : bool := negb (Qle_bool b a).

(** [np.argmax] scans left to right and moves only on a strictly larger
    value, so the first maximum wins. *)
Fixpoint argmax_from (best_i : nat) (best : Q) (i : nat) (l : list Q) : nat :=
  match l with
  | [] => best_i
  | x :: r =>
      if Qltb best x then argmax_from i x (S i) r
      else argmax_from best_i best (S i) r
  end.

(** [None]: the [ValueError] numpy raises on an empty sequence. *)
Definition argmax (l : list Q) : option nat :=
  match l with
  | [] => None
  | x :: r => Some (argmax_from 0 x 1 r)
  end.

Definition is_multipart (g : Geometry) : bool :=
  String.eqb (geom_type g) "MultiPolygon"
  || String.eqb (geom_type g) "GeometryCollection".

(** One turn of the loop over [selected_3857.geometry]. *)
Definition add_parts (parts : list Geometry) (geom : option Geometry)
  : list Geometry :=
  match geom with
  | None => parts
  | Some g =>
      if is_multipart g
      then fold_left (fun acc part => acc ++ [part]) (geoms g) parts
      else parts ++ [g]
  end.

Definition collect_parts (geometries : list (option Geometry)) : list Geometry :=
  fold_left add_parts geometries [].

Section Mainland.

(** pyproj's point transform between two reference systems. *)
Variable transform : CRS -> CRS -> coord -> coord.
(** [g.area] *)
Variable area : Geometry -> Q.
(** [GeoSeries.unary_union] *)
Variable unary_union : list (option Geometry) -> Geometry.

Definition reproject (src dst : CRS) (g : Geometry) : Geometry :=
  map_coords (transform src dst) g.

(** [gdf.to_crs(...)]: null geometries stay null. *)
Definition to_crs {A} (dst : CRS) (gdf : GeoDataFrame A) : GeoDataFrame A :=
  mkFrame dst
    (map (fun f => mkFeature (attrs f)
                     (option_map (reproject (crs gdf) dst) (geometry f)))
         (rows gdf)).

(** [None] stands for an exception escaping the block. *)
Definition extract_mainland (selected_country : GeoDataFrame Country)
  : option Mainland :=
  let selected_3857 := to_crs EPSG_3857 selected_country in
  let parts := collect_parts (map geometry (rows selected_3857)) in
  if (length parts =? 0)%nat then
    Some (mkMainland
            (Some (unary_union (map geometry (rows selected_country))))
            (FullSelection selected_country))
  else
    let areas := map area parts in
    match argmax areas with
    | None => None
    | Some largest_idx =>
        match nth_error parts largest_idx with
        | None => None
        | Some largest =>
            let mainland_3857 :=
              mkFrame EPSG_3857 [mkFeature tt (Some largest)] in
            match nth_error
                    (map geometry
                       (rows (to_crs (crs selected_country) mainland_3857)))
                    0 with
            | None => None
            | Some mask =>
                Some (mkMainland mask
                        (GeometryOnly
                           (mkFrame (crs selected_country)
                                    [mkFeature tt mask])))
            end
        end
    end.

End Mainland.

(* ------------------------------------------------------------------ *)
(** ** River size classes ([plot_stylish_map], metric and [pd.cut]) *)

Inductive SizeClass : Type := small | medium | large.

(** A table cell: a null, a number, or a category value. *)
Inductive cell : Type :=
| NaN
| Num (q : Q)
| Cat (c : SizeClass).

(** A river feature.  The rivers are read with [mask=mainland_mask], which
    keeps features meeting the mask, so each one has a geometry. *)
Record River : Type := mkRiver {
  fields : list (string * cell);
  line : Geometry
}.

Record RiverFrame : Type := mkRivers {
  river_crs : CRS;
  columns : list string;
  river_rows : list River
}.

Definition has_column (name : string) (gdf : RiverFrame) : bool :=
  existsb (String.eqb name) (columns gdf).

Fixpoint get_field (name : string) (fs : list (string * cell)) : cell :=
  match fs with
  | [] => NaN
  | (k, v) :: r => if String.eqb k name then v else get_field name r
  end.

Fixpoint set_field (name : string) (v : cell) (fs : list (string * cell))
  : list (string * cell) :=
  match fs with
  | [] => [(name, v)]
  | (k, w) :: r =>
      if String.eqb k name then (k, v) :: r else (k, w) :: set_field name v r
  end.

(** [gdf[name]] *)
Definition column (name : string) (gdf : RiverFrame) : list cell :=
  map (fun r => get_field name (fields r)) (river_rows gdf).

(** [gdf.assign(name=values)]: a new frame, same rows in the same order. *)
Definition assign (name : string) (values : list cell) (gdf : RiverFrame)
  : RiverFrame :=
  mkRivers (river_crs gdf)
    (if has_column name gdf then columns gdf else columns gdf ++ [name])
    (map (fun rv => mkRiver (set_field name (snd rv) (fields (fst rv)))
                            (line (fst rv)))
         (combine (river_rows gdf) values)).

(** [.fillna(0).astype(float)] on one cell; a category cell takes neither. *)
Definition fillna_float (c : cell) : option Q :=
  match c with
  | NaN => Some 0
  | Num q => Some q
  | Cat _ => None
  end.

Fixpoint traverse {A B} (f : A -> option B) (l : list A) : option (list B) :=
  match l with
  | [] => Some []
  | a :: r =>
      match f a with
      | None => None
      | Some b =>
          match traverse f r with
          | None => None
          | Some bs => Some (b :: bs)
          end
      end
  end.

Definition Qmax (a b : Q) : Q := if Qle_bool a b then b else a.

(** [Series.max()]; [None] is the NaN pandas gives for no rows. *)
Definition series_max (l : list Q) : option Q :=
  match l with
  | [] => None
  | x :: r => Some (fold_left Qmax r x)
  end.

(** [bins.searchsorted(x, side='left')] on increasing bins: how many edges lie
    strictly below [x]. *)
Fixpoint searchsorted_left (bins : list Q) (x : Q) : nat :=
  match bins with
  | [] => 0
  | b :: r => if Qltb b x then S (searchsorted_left r x) else 0
  end.

(** [pd.cut] with [right=True], [include_lowest=False]: edge index 0 and edge
    index [len(bins)] are out of range and give NaN. *)
Definition cut1 (bins : list Q) (labels : list SizeClass) (x : Q) : cell :=
  let ids := searchsorted_left bins x in
  if ((ids =? 0) || (ids =? length bins))%nat then NaN
  else match nth_error labels (ids - 1) with
       | Some l => Cat l
       | None => NaN
       end.

Definition cut (xs : list Q) (bins : list Q) (labels : list SizeClass)
  : list cell :=
  map (cut1 bins labels) xs.

Definition size_bins : list Q := [-(1); 0.33; 0.66; 1.0]%Q.
Definition size_labels : list SizeClass := [small; medium; large].

Section Classifier.

(** [g.length] *)
Variable geom_length : Geometry -> Q.

Definition size_metric (rivers_3857 : RiverFrame) : option (list Q) :=
  if has_column "UPLAND_SKM" rivers_3857
  then traverse fillna_float (column "UPLAND_SKM" rivers_3857)
  else Some (map (fun r => geom_length (line r)) (river_rows rivers_3857)).

Definition relative (metric : list Q) : list Q :=
  match series_max metric with
  | Some m => if Qltb 0 m then map (fun x => x / m)%Q metric else metric
  | None => metric
  end.

(** Lines 146-158 of [plot_stylish_map]; [None] is an exception. *)
Definition classify (rivers_3857 : RiverFrame) : option RiverFrame :=
  match size_metric rivers_3857 with
  | None => None
  | Some metric =>
      let rel := relative metric in
      let cats := cut rel size_bins size_labels in
      Some (assign "_size_cat" cats rivers_3857)
  end.

(** The size class the renderer reads back for each feature. *)
Definition size_classes (gdf : RiverFrame) : list cell :=
  column "_size_cat" gdf.

End Classifier.

(* ------------------------------------------------------------------ *)
(** ** Stand-ins for the external stack, used to run the code on examples *)

(** A regex engine that rejects every pattern beyond the simple fragment. *)
Definition no_regex (pat : string) : option (string -> bool) := None.

(** A linear stand-in for the projection: metres per degree at the equator
    towards EPSG:3857, its inverse on the way back, identity otherwise. *)
Definition equirect (src dst : CRS) (c : coord) : coord :=
  if (dst =? EPSG_3857)%N then (fst c * 111320, snd c * 111320)%Q
  else if (src =? EPSG_3857)%N then (fst c / 111320, snd c / 111320)%Q
  else c.

Fixpoint cross_sum (cs : list coord) : Q :=
  match cs with
  | a :: (b :: _) as r => (fst a * snd b - fst b * snd a) + cross_sum r
  | _ => 0
  end%Q.

(** Area of a closed ring by the shoelace formula. *)
Definition ring_area (cs : list coord) : Q := (Qabs (cross_sum cs) / 2)%Q.

Definition Qsum (l : list Q) : Q := fold_right Qplus 0%Q l.

Definition polygon_area (p : PolygonData) : Q :=
  (ring_area (shell p) - Qsum (map ring_area (holes p)))%Q.

Fixpoint planar_area (g : Geometry) : Q :=
  match g with
  | Polygon p => polygon_area p
  | MultiPolygon ps => Qsum (map polygon_area ps)
  | GeometryCollection gs =>
      fold_right (fun h acc => planar_area h + acc)%Q 0%Q gs
  | _ => 0%Q
  end.

(** A stand-in for the union, for running examples: the non-null members
    gathered as they are (GEOS would merge them and drop the empty ones; on a
    selection of null geometries both give the empty collection). *)
Definition gather_union (gs : list (option Geometry)) : Geometry :=
  GeometryCollection
    (flat_map (fun g => match g with Some h => [h] | None => [] end) gs).

Fixpoint taxicab (cs : list coord) : Q :=
  match cs with
  | a :: (b :: _) as r =>
      (Qabs (fst b - fst a) + Qabs (snd b - snd a) + taxicab r)%Q
  | _ => 0%Q
  end.

(** A length for examples: the taxicab length of a line string. *)
Definition taxicab_length (g : Geometry) : Q :=
  match g with
  | LineString cs => taxicab cs
  | _ => 0%Q
  end.

Definition EPSG_4326 : CRS := 4326%N.

Definition square (x y side : Q) : PolygonData :=
  mkPolygon [(x, y); (x + side, y); (x + side, y + side); (x, y + side); (x, y)]%Q [].

Definition country (name type : string) (g : option Geometry) : Feature Country :=
  mkFeature (mkCountry name type) g.

Definition river (upland : cell) (g : Geometry) : River :=
  mkRiver [("HYRIV_ID", Num 1); ("UPLAND_SKM", upland)] g.

Definition rivers_with (uplands : list cell) : RiverFrame :=
  mkRivers EPSG_3857 ["HYRIV_ID"; "UPLAND_SKM"]
    (map (fun u => river u (LineString [(0, 0); (1, 1)]%Q)) uplands).

(** Resolution as the specification words it: exact match first, then a plain
    substring test, then [NotFoundError]. *)
Definition substring_match (country_input : string) (f : Feature Country) : bool :=
  substringb (lower country_input) (lower (SOVEREIGNT (attrs f)))
  && not_dependency f.

Definition resolve_by_substring (country_gdf : GeoDataFrame Country)
  (country_name : string) : outcome (GeoDataFrame Country) :=
  let country_input := strip country_name in
  let exact := select (exact_match country_input) country_gdf in
  let partial := select (substring_match country_input) country_gdf in
  if negb (empty exact) then Selected exact
  else if negb (empty partial) then Selected partial
  else NotFoundError.

Definition blank (s : string) : bool :=
  forallb is_space (list_ascii_of_string s).

Definition italy_only : GeoDataFrame Country :=
  mkFrame EPSG_4326
    [country "Italy" "Sovereign country" (Some (Polygon (square 12 42 1)))].

Definition dependency_only : GeoDataFrame Country :=
  mkFrame EPSG_4326
    [country "Denmark" "Dependency" (Some (Polygon (square 0 0 1)))].

Definition states : GeoDataFrame Country :=
  mkFrame EPSG_4326
    [country "United States of America" "Country" (Some (Polygon (square 0 0 3)));
     country "United States of America" "Dependency" (Some (Polygon (square 9 9 1)));
     country "Mexico" "Sovereign country" (Some (Polygon (square 0 (-5) 2)))].

(** What one geometry of the selection adds to [parts]. *)
Definition parts_of (geom : option Geometry) : list Geometry :=
  match geom with
  | None => []
  | Some g => if is_multipart g then geoms g else [g]
  end.

Definition null {A} (l : list A) : bool :=
  match l with [] => true | _ => false end.

(** shapely's [is_empty]: no coordinates anywhere in the geometry. *)
Fixpoint is_empty (g : Geometry) : bool :=
  match g with
  | Point _ => false
  | LineString cs => null cs
  | Polygon p => null (shell p)
  | MultiPoint cs => null cs
  | MultiLineString ls => forallb null ls
  | MultiPolygon ps => forallb (fun p => null (shell p)) ps
  | GeometryCollection gs => forallb is_empty gs
  end.

Definition null_or_empty (geom : option Geometry) : bool :=
  match geom with
  | None => true
  | Some g => is_empty g
  end.

(** A null geometry, or a multi-part geometry with no member. *)
Definition memberless (geom : option Geometry) : Prop :=
  geom = None \/ geom = Some (MultiPolygon []) \/
  geom = Some (GeometryCollection []).

(** The geometries a countries dataset carries: polygons, multi-polygons,
    or nothing. *)
Definition country_geometry (geom : option Geometry) : Prop :=
  match geom with
  | None => True
  | Some (Polygon _) => True
  | Some (MultiPolygon _) => True
  | Some _ => False
  end.

Definition empty_polygon : Geometry := Polygon (mkPolygon [] []).

Definition hollow_country : GeoDataFrame Country :=
  mkFrame EPSG_4326 [country "Atlantis" "Sovereign country" (Some empty_polygon)].

Definition null_country : GeoDataFrame Country :=
  mkFrame EPSG_4326
    [country "Atlantis" "Sovereign country" None;
     country "Atlantis" "Country" None].

Definition archipelago : GeoDataFrame Country :=
  mkFrame EPSG_4326
    [country "Italy" "Sovereign country" None;
     country "Italy" "Sovereign country"
       (Some (MultiPolygon [square 0 0 1; square 5 5 2; square 9 9 2]));
     country "Italy" "Country" (Some (MultiPolygon []));
     country "Italy" "Country" (Some (Polygon (square 20 20 1)))].

Definition nested_collection : GeoDataFrame Country :=
  mkFrame EPSG_4326
    [country "Atlantis" "Sovereign country"
       (Some (GeometryCollection
                [MultiPolygon [square 0 0 2; square 5 5 2];
                 Polygon (square 9 9 1)]))].

Definition vacant_country : GeoDataFrame Country :=
  mkFrame EPSG_4326
    [country "Atlantis" "Sovereign country" None;
     country "Atlantis" "Country" (Some (MultiPolygon []));
     country "Atlantis" "Country" (Some (GeometryCollection []))].

Definition non_null (geom : option Geometry) : bool :=
  match geom with Some _ => true | None => false end.

(** How a classified row relates to the row it comes from: same geometry,
    same fields but for the one written by [assign]. *)
Definition annotated (name : string) (r r' : River) : Prop :=
  line r' = line r /\
  exists v, fields r' = set_field name v (fields r).

(** The reading of one [UPLAND_SKM] cell: nulls count as zero. *)
Definition upland_or_zero (c : cell) : Q :=
  match c with
  | Num q => q
  | _ => 0
  end.

Definition numeric (c : cell) : Prop :=
  match c with
  | Cat _ => False
  | _ => True
  end.

Definition lengths_only (ls : list Geometry) : RiverFrame :=
  mkRivers EPSG_3857 ["HYRIV_ID"]
    (map (fun g => mkRiver [("HYRIV_ID", Num 7)] g) ls).

(* ------------------------------------------------------------------ *)
(** ** Drawing decisions of [plot_stylish_map] *)

Definition SizeClass_eqb (a b : SizeClass) : bool :=
  match a, b with
  | small, small | medium, medium | large, large => true
  | _, _ => false
  end.

Record Style : Type := mkStyle {
  style_linewidth : Q;
  style_alpha : Q
}.

(** [class_styles], in the order the dict is written and iterated. *)
Definition class_styles : list (SizeClass * Style) :=
  [(small, mkStyle 0.8 0.8);
   (medium, mkStyle 1.8 0.9);
   (large, mkStyle 4.0 0.95)].

(** [rivers_3857["_size_cat"] == cat], row by row: a null class equals no
    label. *)
Definition has_class (cat : SizeClass) (r : River) : bool :=
  match get_field "_size_cat" (fields r) with
  | Cat c => SizeClass_eqb c cat
  | _ => false
  end.

(** One call of [subset.plot]. *)
Record Layer : Type := mkLayer {
  layer_rows : list River;
  layer_style : Style
}.

(** The loop over [class_styles]: a class without rivers draws nothing. *)
Definition river_layers (rivers_3857 : RiverFrame) : list Layer :=
  flat_map
    (fun cs =>
       let subset := filter (has_class (fst cs)) (river_rows rivers_3857) in
       if (length subset =? 0)%nat then [] else [mkLayer subset (snd cs)])
    class_styles.

(** [xbuffer] and [ybuffer]: three percent of the extent, or 10 km when the
    extent is not positive. *)
Definition axis_buffer (lo hi : Q) : Q :=
  if Qltb 0 (hi - lo) then ((hi - lo) * 0.03)%Q else 10000%Q.

(** [ax.set_xlim] / [ax.set_ylim] arguments. *)
Definition axis_limits (lo hi : Q) : Q * Q :=
  ((lo - axis_buffer lo hi)%Q, (hi + axis_buffer lo hi)%Q).

(** The zoom level of the basemap, from the width of the country in metres. *)
Definition basemap_zoom (width_m : Q) : nat :=
  if Qle_bool width_m 0 then 6
  else if Qltb 5000000 width_m then 4
  else if Qltb 2000000 width_m then 5
  else if Qltb 1000000 width_m then 6
  else if Qltb 500000 width_m then 7
  else if Qltb 100000 width_m then 8
  else 10.

(** [s.replace(old, new)] for one-character [old] and [new]. *)
Fixpoint replace_char (old new : ascii) (s : string) : string :=
  match s with
  | EmptyString => EmptyString
  | String c r =>
      String (if Ascii.eqb c old then new else c) (replace_char old new r)
  end.

(** [f"rivers_of_{country_name.lower().replace(' ', '_')}"] *)
Definition output_stem (country_name : string) : string :=
  ("rivers_of_" ++ replace_char " " "_" (lower country_name))%string.


Fixpoint string_forall (p : ascii -> bool) (s : string) : bool :=
  match s with
  | EmptyString => true
  | String c r => p c && string_forall p r
  end.



Definition class_rank (c : SizeClass) : nat :=
  match c with small => 0 | medium => 1 | large => 2 end.

(** The line width a class is drawn with, read from [class_styles]. *)
Definition class_linewidth (c : SizeClass) : Q :=
  match find (fun cs => SizeClass_eqb (fst cs) c) class_styles with
  | Some cs => style_linewidth (snd cs)
  | None => 0
  end.

Definition is_classed (r : River) : bool :=
  match get_field "_size_cat" (fields r) with
  | Cat _ => true
  | _ => false
  end.

(* ------------------------------------------------------------------ *)
(** ** Files, downloads, and the request handler of [app.py] *)

Definition is_slash (c : ascii) : bool := Ascii.eqb c "/".

Fixpoint ends_with_slash (s : string) : bool :=
  match s with
  | EmptyString => false
  | String c EmptyString => is_slash c
  | String _ r => ends_with_slash r
  end.

(** [os.path.join(a, b)] on POSIX paths. *)
Definition path_join (a b : string) : string :=
  match b with
  | String c _ =>
      if is_slash c then b
      else match a with
           | EmptyString => b
           | _ => if ends_with_slash a then (a ++ b)%string
                  else (a ++ "/" ++ b)%string
           end
  | EmptyString =>
      match a with
      | EmptyString => EmptyString
      | _ => if ends_with_slash a then a else (a ++ "/")%string
      end
  end.

(** [os.path.basename(p)]: what follows the last slash. *)
Fixpoint basename (p : string) : string :=
  match p with
  | EmptyString => EmptyString
  | String c r =>
      if negb (string_forall (fun d => negb (is_slash d)) r) then basename r
      else if is_slash c then r
      else p
  end.

(** The files that matter, by path, with their content.  Folders are not
    modelled: the data and output folders exist, as [os.makedirs] sees to. *)
Definition FileSystem : Type := list (string * string).

Fixpoint fs_read (fs : FileSystem) (path : string) : option string :=
  match fs with
  | [] => None
  | (p, content) :: r => if String.eqb p path then Some content else fs_read r path
  end.

(** [os.path.exists] *)
Definition fs_exists (fs : FileSystem) (path : string) : bool :=
  match fs_read fs path with Some _ => true | None => false end.

(** [open(path, "wb")] followed by the writes: the file is created or
    replaced. *)
Fixpoint fs_write (fs : FileSystem) (path content : string) : FileSystem :=
  match fs with
  | [] => [(path, content)]
  | (p, c) :: r =>
      if String.eqb p path then (p, content) :: r
      else (p, c) :: fs_write r path content
  end.

(** What [requests.get(url, stream=True)] meets: no connection, or an answer
    with its status and the chunks of the body that arrive, the stream then
    ending properly or breaking. *)
Inductive fetched : Type :=
| Unreachable
| Answer (status : nat) (chunks : list string) (complete : bool).

Inductive exn : Type :=
| ConnectionError
| HTTPError (status : nat)
| ChunkedEncodingError
| ValueError (message : string)
| ReError
| ReadError
| TypeError.

Inductive result (A : Type) : Type :=
| Return (a : A)
| Raise (e : exn).
Arguments Return {A} _.
Arguments Raise {A} _.

Definition join_chunks (chunks : list string) : string :=
  fold_right String.append EmptyString chunks.

(** [Response.raise_for_status]: client and server errors raise. *)
Definition is_error_status (status : nat) : bool :=
  ((400 <=? status) && (status <? 600))%nat.

(** [download_and_save] of [app.py]. *)
Definition download_and_save (DATA_FOLDER : string) (net : string -> fetched)
  (url filename : string) (fs : FileSystem) : FileSystem * result string :=
  let filepath := path_join DATA_FOLDER filename in
  if negb (fs_exists fs filepath) then
    match net url with
    | Unreachable => (fs, Raise ConnectionError)
    | Answer status chunks complete =>
        if is_error_status status then (fs, Raise (HTTPError status))
        else
          let fs' := fs_write fs filepath (join_chunks chunks) in
          if complete then (fs', Return filepath)
          else (fs', Raise ChunkedEncodingError)
    end
  else (fs, Return filepath).

(** [download_and_extract] of [rivers.py]: no status check, nothing is
    extracted, and the message is printed on every normal return. *)
Definition download_and_extract (data_folder : string) (net : string -> fetched)
  (url : string) (fs : FileSystem) : FileSystem * result (list string) :=
  let filename := path_join data_folder (basename url) in
  let printed := [("Downloaded " ++ filename)%string] in
  if negb (fs_exists fs filename) then
    match net url with
    | Unreachable => (fs, Raise ConnectionError)
    | Answer _ chunks complete =>
        let fs' := fs_write fs filename (join_chunks chunks) in
        if complete then (fs', Return printed)
        else (fs', Raise ChunkedEncodingError)
    end
  else (fs, Return printed).

Definition DATA_URL : string :=
  "https://github.com/spatialthoughts/python-dataviz-web/releases/download/".
Definition HYDRORIVERS_FILE : string := "hydrorivers_100.gpkg".
Definition COUNTRIES_FILE : string := "ne_10m_admin_0_countries_ind.zip".

(** What [plot_stylish_map] has settled when it saves the figure. *)
Record Figure : Type := mkFigure {
  fig_country : Region;
  fig_layers : list Layer;
  fig_xlim : Q * Q;
  fig_ylim : Q * Q;
  fig_basemap : option (string * nat);
  fig_title : string
}.

Inductive response : Type :=
| Redirect (flashed : string)
| Page (country map_png map_pdf : string).

Section Application.

Variable DATA_FOLDER OUTPUT_FOLDER : string.
Variable net : string -> fetched.
Variable re_compile : string -> option (string -> bool).
Variable transform : CRS -> CRS -> coord -> coord.
Variable area : Geometry -> Q.
Variable unary_union : list (option Geometry) -> Geometry.
Variable geom_length : Geometry -> Q.
(** [gpd.read_file] on the content of the two datasets. *)
Variable read_countries : string -> result (GeoDataFrame Country).
Variable read_rivers : string -> option Geometry -> result RiverFrame.
(** [gdf.total_bounds]: minx, miny, maxx, maxy; [None] when they are not
    finite numbers (NaN when no geometry has a coordinate). *)
Variable total_bounds : list (option Geometry) -> option (Q * Q * Q * Q).
(** [ctx.add_basemap]: whether the provider delivers at this zoom. *)
Variable add_basemap : string -> nat -> bool.
(** [fig.savefig]: the bytes written for a format, or the exception. *)
Variable savefig : Figure -> string -> result string.
(** [str(e)] for the exceptions of the libraries. *)
Variable library_str : exn -> string.

Definition region_to_crs (dst : CRS) (r : Region) : Region :=
  match r with
  | FullSelection gdf => FullSelection (to_crs transform dst gdf)
  | GeometryOnly gdf => GeometryOnly (to_crs transform dst gdf)
  end.

Definition rivers_to_crs (dst : CRS) (gdf : RiverFrame) : RiverFrame :=
  mkRivers dst (columns gdf)
    (map (fun r => mkRiver (fields r)
                     (reproject transform (river_crs gdf) dst (line r)))
         (river_rows gdf)).

(** The two nested [try] blocks around [ctx.add_basemap]. *)
Definition choose_basemap (zoom : nat) : option (string * nat) :=
  if add_basemap "Stamen.TerrainBackground" zoom
  then Some ("Stamen.TerrainBackground", zoom)
  else if add_basemap "OpenStreetMap.Mapnik" zoom
       then Some ("OpenStreetMap.Mapnik", zoom)
       else None.

(** [plot_stylish_map] of [app.py].  [ax.set_xlim] refuses limits that are
    not finite; the PNG is saved before the PDF. *)
Definition plot_stylish_map (country_gdf : Region) (rivers_gdf : RiverFrame)
  (country_name stem_name : string) (fs : FileSystem)
  : FileSystem * result (string * string) :=
  let country_3857 := region_to_crs EPSG_3857 country_gdf in
  let rivers_3857 := rivers_to_crs EPSG_3857 rivers_gdf in
  match classify geom_length rivers_3857 with
  | None => (fs, Raise TypeError)
  | Some rivers_3857 =>
      match total_bounds (region_geometries country_3857) with
      | None => (fs, Raise (ValueError "Axis limits cannot be NaN or Inf"))
      | Some (minx, miny, maxx, maxy) =>
          let width_m := (maxx - minx)%Q in
          let fig :=
            mkFigure country_3857 (river_layers rivers_3857)
              (axis_limits minx maxx) (axis_limits miny maxy)
              (choose_basemap (basemap_zoom width_m))
              ("Rivers of " ++ country_name)%string in
          let png_name := (stem_name ++ ".png")%string in
          let pdf_name := (stem_name ++ ".pdf")%string in
          let png_path := path_join OUTPUT_FOLDER png_name in
          let pdf_path := path_join OUTPUT_FOLDER pdf_name in
          match savefig fig "png" with
          | Raise e => (fs, Raise e)
          | Return png =>
              let fs := fs_write fs png_path png in
              match savefig fig "pdf" with
              | Raise e => (fs, Raise e)
              | Return pdf =>
                  let fs := fs_write fs pdf_path pdf in
                  (fs, Return (png_name, pdf_name))
              end
          end
      end
  end.

Definition not_found_message (country_name : string) : string :=
  ("Country '" ++ country_name ++ "' not found. Try a different name.")%string.

Definition read_dataset {A} (read : string -> result A) (fs : FileSystem)
  (path : string) : result A :=
  match fs_read fs path with
  | Some content => read content
  | None => Raise ReadError
  end.

(** [generate_country_map] of [app.py]. *)
Definition generate_country_map (country_name : string) (fs : FileSystem)
  : FileSystem * result (string * string) :=
  let hydro_url := (DATA_URL ++ "hydrosheds/" ++ HYDRORIVERS_FILE)%string in
  let countries_url := (DATA_URL ++ "naturalearth/" ++ COUNTRIES_FILE)%string in
  match download_and_save DATA_FOLDER net countries_url COUNTRIES_FILE fs with
  | (fs, Raise e) => (fs, Raise e)
  | (fs, Return countries_fp) =>
  match download_and_save DATA_FOLDER net hydro_url HYDRORIVERS_FILE fs with
  | (fs, Raise e) => (fs, Raise e)
  | (fs, Return hydrorivers_fp) =>
  match read_dataset read_countries fs countries_fp with
  | Raise e => (fs, Raise e)
  | Return country_gdf =>
  match resolve re_compile country_gdf country_name with
  | PatternError => (fs, Raise ReError)
  | NotFoundError => (fs, Raise (ValueError (not_found_message country_name)))
  | Selected selected_country =>
  match extract_mainland transform area unary_union selected_country with
  | None => (fs, Raise TypeError)   (* the block never raises, see below *)
  | Some mainland =>
  match read_dataset (fun content => read_rivers content (mainland_mask mainland))
          fs hydrorivers_fp with
  | Raise e => (fs, Raise e)
  | Return river_gdf =>
      let stem := output_stem country_name in
      plot_stylish_map (mainland_gdf mainland) river_gdf country_name stem fs
  end end end end end end.

Definition exn_str (e : exn) : string :=
  match e with
  | ValueError message => message
  | _ => library_str e
  end.

(** The [/generate] route: [form_country] is the posted field, if any. *)
Definition generate (form_country : option string) (fs : FileSystem)
  : FileSystem * response :=
  let country :=
    strip (match form_country with Some v => v | None => EmptyString end) in
  match country with
  | EmptyString => (fs, Redirect "Please select a country.")
  | _ =>
      match generate_country_map country fs with
      | (fs, Return (png_name, pdf_name)) => (fs, Page country png_name pdf_name)
      | (fs, Raise e) => (fs, Redirect (exn_str e))
      end
  end.

End Application.

(** Networks and library stand-ins for running the application code. *)
Definition net_ok (url : string) : fetched := Answer 200 ["PK"; "data"] true.
Definition net_404 (url : string) : fetched := Answer 404 ["Not Found"] true.
Definition net_broken (url : string) : fetched := Answer 200 ["PK"] false.
Definition net_down (url : string) : fetched := Unreachable.

Definition read_states (content : string) : result (GeoDataFrame Country) :=
  Return states.

Definition read_three_rivers (content : string) (mask : option Geometry)
  : result RiverFrame :=
  Return (mkRivers EPSG_4326 ["HYRIV_ID"; "UPLAND_SKM"]
            (map (fun u => river u (LineString [(0, 0); (1, 1)]%Q))
                 [Num 10; Num 500; Num 1000])).

Definition unit_bounds (gs : list (option Geometry))
  : option (Q * Q * Q * Q) :=
  if forallb null_or_empty gs then None else Some (0, 0, 1, 1)%Q.

Definition no_basemap (provider : string) (zoom : nat) : bool := false.

Definition title_bytes (fig : Figure) (format : string) : string :=
  (format ++ ":" ++ fig_title fig)%string.

Definition save_title (fig : Figure) (format : string) : result string :=
  Return (title_bytes fig format).

Definition class_name (e : exn) : string :=
  match e with
  | ConnectionError => "ConnectionError"
  | HTTPError _ => "HTTPError"
  | ChunkedEncodingError => "ChunkedEncodingError"
  | ValueError m => m
  | ReError => "re.error"
  | ReadError => "DriverError"
  | TypeError => "TypeError"
  end.


(* ------------------------------------------------------------------ *)
(** ** Saving the PNG in [rivers.py] *)

(** One call of [fig.savefig]: tight bounding box or not, the DPI, and the
    figure size in inches at that moment. *)
Record SaveCall : Type := mkSave {
  save_tight : bool;
  save_dpi : nat;
  save_size : nat * nat
}.

Inductive save_outcome : Type :=
| Written
| SaveValueError
| SaveOtherError.

Inductive save_event : Type :=
| Attempt (call : SaveCall)
| CloseFigure
| PrintSaved.

(** The [try] ladder at the end of [plot_stylish_map] in [rivers.py], with
    the events it causes in order and whether it returns ([true]) or lets an
    exception out ([false]).  The warnings printed on the way are left out. *)
Definition save_png (savefig : SaveCall -> save_outcome)
  : list save_event * bool :=
  let first := mkSave true 300 (12, 12)%nat in
  let second := mkSave false 150 (12, 12)%nat in
  let third := mkSave false 100 (10, 6)%nat in
  match savefig first with
  | Written => ([Attempt first; CloseFigure; PrintSaved], true)
  | SaveOtherError => ([Attempt first; CloseFigure], false)
  | SaveValueError =>
      match savefig second with
      | Written =>
          ([Attempt first; Attempt second; CloseFigure; PrintSaved], true)
      | _ =>
          match savefig third with
          | Written =>
              ([Attempt first; Attempt second; Attempt third;
                CloseFigure; PrintSaved], true)
          | _ =>
              ([Attempt first; Attempt second; Attempt third; CloseFigure],
               false)
          end
      end
  end.

Definition attempts_of (trace : list save_event) : list SaveCall :=
  flat_map (fun e => match e with Attempt c => [c] | _ => [] end) trace.

(* ------------------------------------------------------------------ *)
(** ** Normalisation and [pd.cut] in double precision *)








(* ------------------------------------------------------------------ *)
(** ** Geometries that agree within a tolerance *)





(* ================================================================== *)
(** * Properties *)

(** ** Strings *)

Lemma is_meta_dot (p : ascii) : is_dot p = true -> is_meta p = true.
Proof.
  unfold is_dot. intro H. apply Ascii.eqb_eq in H. subst p. reflexivity.
Qed.

Lemma literal_is_simple (pat : string) :
  literal_pattern pat = true -> simple_pattern pat = true.
Proof.
  induction pat as [|p r IH]; simpl; [reflexivity|].
  intro H. apply andb_true_iff in H. destruct H as [Hp Hr].
  rewrite Hp, (IH Hr). now rewrite orb_true_r.
Qed.

Lemma match_here_literal (pat : string) :
  literal_pattern pat = true -> forall s, match_here pat s = prefixb pat s.
Proof.
  induction pat as [|p r IH]; simpl; [reflexivity|].
  intros H s. apply andb_true_iff in H. destruct H as [Hp Hr].
  destruct s as [|c s]; [reflexivity|].
  rewrite (IH Hr). f_equal.
  unfold match_char. destruct (is_dot p) eqn:Hd; [|reflexivity].
  apply is_meta_dot in Hd. rewrite Hd in Hp. discriminate.
Qed.

Lemma search_literal (pat : string) :
  literal_pattern pat = true -> forall s, search_simple pat s = substringb pat s.
Proof.
  intros H s. induction s as [|c s IH]; simpl.
  - now rewrite (match_here_literal _ H).
  - now rewrite (match_here_literal _ H), IH.
Qed.

Lemma prefixb_app (p s : string) :
  prefixb p s = true <-> exists post, s = (p ++ post)%string.
Proof.
  revert s. induction p as [|a p IH]; intro s; simpl.
  - split; [intros _; now exists s | reflexivity].
  - destruct s as [|b s].
    + split; [discriminate | intros [post H]; discriminate].
    + rewrite andb_true_iff, Ascii.eqb_eq, IH. split.
      * intros [-> [post ->]]. now exists post.
      * intros [post H]. injection H as -> ->. split; [reflexivity | now exists post].
Qed.

(** [substringb] is the substring relation. *)
Lemma substringb_app (p s : string) :
  substringb p s = true <-> exists pre post, s = (pre ++ p ++ post)%string.
Proof.
  induction s as [|c s IH].
  - simpl. rewrite orb_false_r, prefixb_app. split.
    + intros [post H]. now exists EmptyString, post.
    + intros [pre [post H]]. destruct pre; simpl in H.
      * now exists post.
      * discriminate.
  - cbn [substringb]. rewrite orb_true_iff, prefixb_app, IH. split.
    + intros [[post H] | [pre [post H]]].
      * now exists EmptyString, post.
      * exists (String c pre), post. simpl. now rewrite H.
    + intros [pre [post H]]. destruct pre as [|a pre]; simpl in H.
      * left. now exists post.
      * right. injection H as _ H. now exists pre, post.
Qed.

Lemma lstrip_blank (s : string) : blank s = true -> lstrip s = EmptyString.
Proof.
  unfold blank. induction s as [|c s IH]; simpl; [reflexivity|].
  intro H. apply andb_true_iff in H. destruct H as [Hc Hs].
  rewrite Hc. auto.
Qed.

Lemma strip_blank (s : string) : blank s = true -> strip s = EmptyString.
Proof.
  intro H. unfold strip. now rewrite (lstrip_blank _ H).
Qed.

Lemma lower_nonempty (s : string) : s <> EmptyString -> lower s <> EmptyString.
Proof.
  destruct s; simpl; [congruence | discriminate].
Qed.

Lemma search_simple_empty (s : string) : search_simple EmptyString s = true.
Proof. destruct s; reflexivity. Qed.

(** ** Country resolution *)

Section ResolverFacts.

Variable re_compile : string -> option (string -> bool).

Lemma empty_select_false {A} (keep : Feature A -> bool) (gdf : GeoDataFrame A) :
  empty (select keep gdf) = false <->
  exists f, In f (rows gdf) /\ keep f = true.
Proof.
  unfold empty, select. cbn [rows]. split.
  - destruct (filter keep (rows gdf)) as [|f l] eqn:E; [discriminate|].
    intros _. exists f. apply filter_In. rewrite E. now left.
  - intros [f Hf]. apply filter_In in Hf.
    destruct (filter keep (rows gdf)); [destruct Hf | reflexivity].
Qed.

Lemma select_ext {A} (p q : Feature A -> bool) (gdf : GeoDataFrame A) :
  (forall f, p f = q f) -> select p gdf = select q gdf.
Proof.
  intro H. unfold select. f_equal. now apply filter_ext.
Qed.

(** On a query without regex-special characters the code is the
    specification's exact-then-substring procedure. *)
Lemma resolve_literal_query (country_gdf : GeoDataFrame Country) (q : string) :
  literal_pattern (lower (strip q)) = true ->
  resolve re_compile country_gdf q = resolve_by_substring country_gdf q.
Proof.
  intro Hlit. unfold resolve, resolve_by_substring, str_contains.
  rewrite (literal_is_simple _ Hlit).
  destruct (empty (select (exact_match (strip q)) country_gdf)); simpl;
    [|reflexivity].
  rewrite (select_ext _ (substring_match (strip q))).
  - now destruct (empty (select (substring_match (strip q)) country_gdf)).
  - intro f. unfold substring_match. now rewrite (search_literal _ Hlit).
Qed.

(** Whatever is selected holds no dependency-typed feature. *)
Lemma resolve_no_dependency (country_gdf sel : GeoDataFrame Country) (q : string) :
  resolve re_compile country_gdf q = Selected sel ->
  forall f, In f (rows sel) -> TYPE (attrs f) <> "Dependency".
Proof.
  unfold resolve. intros H f Hf.
  assert (Hnd : not_dependency f = true).
  { destruct (empty (select (exact_match (strip q)) country_gdf)).
    - destruct (str_contains re_compile (lower (strip q))) as [found|];
        [|discriminate].
      match type of H with
      | (if empty ?s then _ else _) = _ => destruct (empty s)
      end; [discriminate|].
      injection H as <-. cbn [select rows] in Hf.
      apply filter_In in Hf. destruct Hf as [_ Hf].
      now apply andb_true_iff in Hf.
    - injection H as <-. cbn [select rows] in Hf.
      apply filter_In in Hf. destruct Hf as [_ Hf].
      unfold exact_match in Hf. now apply andb_true_iff in Hf. }
  unfold not_dependency in Hnd. apply negb_true_iff in Hnd.
  now apply String.eqb_neq in Hnd.
Qed.

(** C2 (the code departs from the claim): a query holding the regex wildcard
    is searched as a pattern, not as text.  Asked for ".", the code selects
    Italy, whose name neither equals "." nor contains it; the claim's
    exact-then-substring procedure ends in [NotFoundError] there. *)
Theorem resolve_wildcard_query :
  select (exact_match (strip ".")) italy_only = mkFrame EPSG_4326 [] /\
  select (substring_match (strip ".")) italy_only = mkFrame EPSG_4326 [] /\
  resolve_by_substring italy_only "." = NotFoundError /\
  resolve re_compile italy_only "." = Selected italy_only.
Proof. repeat split. Qed.

Lemma exact_match_blank (q : string) (f : Feature Country) :
  blank q = true -> SOVEREIGNT (attrs f) <> EmptyString ->
  exact_match (strip q) f = false.
Proof.
  intros Hq Hne. unfold exact_match. rewrite (strip_blank _ Hq). simpl.
  apply lower_nonempty in Hne.
  destruct (String.eqb_spec (lower (SOVEREIGNT (attrs f))) ""); [contradiction|].
  reflexivity.
Qed.

Lemma resolve_blank_unfold (country_gdf : GeoDataFrame Country) (q : string) :
  (forall f, In f (rows country_gdf) -> SOVEREIGNT (attrs f) <> EmptyString) ->
  blank q = true ->
  select (exact_match (strip q)) country_gdf = mkFrame (crs country_gdf) [] /\
  resolve re_compile country_gdf q =
    if empty (select not_dependency country_gdf) then NotFoundError
    else Selected (select not_dependency country_gdf).
Proof.
  intros Hne Hq.
  assert (Hex : select (exact_match (strip q)) country_gdf
                = mkFrame (crs country_gdf) []).
  { unfold select. f_equal.
    assert (G : forall l, (forall f, In f l -> SOVEREIGNT (attrs f) <> EmptyString) ->
                          filter (exact_match (strip q)) l = []).
    { induction l as [|f l IH]; intros Hl; simpl; [reflexivity|].
      rewrite (exact_match_blank q f Hq) by (apply Hl; now left).
      apply IH. intros g Hg. apply Hl. now right. }
    now apply G. }
  split; [exact Hex|].
  unfold resolve. rewrite Hex. cbn [empty rows].
  rewrite (strip_blank _ Hq). cbn [lower]. unfold str_contains. cbn [simple_pattern].
  rewrite (select_ext _ not_dependency).
  - reflexivity.
  - intro f. now rewrite search_simple_empty.
Qed.

(** C9 (amended): with every sovereignty name non-empty and at least one
    feature that is not a dependency, a blank query passes the exact step
    with nothing, matches every name in the second step, and resolves to
    all the non-dependency features of the dataset. *)
Theorem resolve_blank_query (country_gdf : GeoDataFrame Country) (q : string) :
  (forall f, In f (rows country_gdf) -> SOVEREIGNT (attrs f) <> EmptyString) ->
  blank q = true ->
  (exists f, In f (rows country_gdf) /\ TYPE (attrs f) <> "Dependency") ->
  rows (select (exact_match (strip q)) country_gdf) = [] /\
  (forall f, In f (rows country_gdf) ->
     search_simple (lower (strip q)) (lower (SOVEREIGNT (attrs f))) = true) /\
  resolve re_compile country_gdf q = Selected (select not_dependency country_gdf) /\
  (forall f, In f (rows (select not_dependency country_gdf)) <->
             In f (rows country_gdf) /\ TYPE (attrs f) <> "Dependency").
Proof.
  intros Hne Hq [f0 [Hin Hty]].
  destruct (resolve_blank_unfold country_gdf q Hne Hq) as [Hex Hres].
  assert (Hnd : forall f, not_dependency f = true <-> TYPE (attrs f) <> "Dependency").
  { intro f. unfold not_dependency. rewrite negb_true_iff. apply String.eqb_neq. }
  repeat split.
  - now rewrite Hex.
  - intros f _. rewrite (strip_blank _ Hq). apply search_simple_empty.
  - rewrite Hres.
    assert (E : empty (select not_dependency country_gdf) = false).
    { apply empty_select_false. exists f0. split; [exact Hin | now apply Hnd]. }
    now rewrite E.
  - cbn [select rows] in H. apply filter_In in H. tauto.
  - cbn [select rows] in H. apply filter_In in H. apply Hnd. tauto.
  - intros [H1 H2]. cbn [select rows]. apply filter_In.
    split; [exact H1 | now apply Hnd].
Qed.

End ResolverFacts.

(** C9 (as first stated) fails on a dataset of dependencies only: every name
    is non-empty, the query is blank, and the code ends in [NotFoundError]. *)
Lemma resolve_blank_query_not_found :
  Forall (fun f => SOVEREIGNT (attrs f) <> EmptyString) (rows dependency_only) /\
  blank "  " = true /\
  resolve no_regex dependency_only "  " = NotFoundError.
Proof.
  split; [|split; reflexivity].
  repeat constructor. discriminate.
Qed.

Lemma resolve_blank_query_witness :
  resolve no_regex states "  " =
  Selected (mkFrame EPSG_4326
    [country "United States of America" "Country" (Some (Polygon (square 0 0 3)));
     country "Mexico" "Sovereign country" (Some (Polygon (square 0 (-5) 2)))]).
Proof.
  refine (proj1 (proj2 (proj2 (resolve_blank_query no_regex states "  " _ _ _)))).
  - intros f Hf. simpl in Hf.
    destruct Hf as [<-|[<-|[<-|[]]]]; discriminate.
  - reflexivity.
  - eexists. split; [left; reflexivity | discriminate].
Defined.

(** ** [np.argmax] *)

Lemma Qltb_lt (a b : Q) : Qltb a b = true <-> (a < b)%Q.
Proof.
  unfold Qltb. rewrite negb_true_iff. split.
  - intro H. apply Qnot_le_lt. intro Hle.
    apply Qle_bool_iff in Hle. congruence.
  - intro H. destruct (Qle_bool b a) eqn:E; [|reflexivity].
    apply Qle_bool_iff in E. exfalso. now apply (Qlt_not_le a b).
Qed.

Lemma Qltb_ge (a b : Q) : Qltb a b = false <-> (b <= a)%Q.
Proof.
  unfold Qltb. rewrite negb_false_iff. apply Qle_bool_iff.
Qed.

Lemma argmax_from_spec (l pre : list Q) (best_i : nat) (best : Q) :
  nth_error pre best_i = Some best ->
  (forall y, In y pre -> (y <= best)%Q) ->
  (forall j y, (j < best_i)%nat -> nth_error pre j = Some y -> (y < best)%Q) ->
  let k := argmax_from best_i best (length pre) l in
  exists v, nth_error (pre ++ l) k = Some v /\
            (forall y, In y (pre ++ l) -> (y <= v)%Q) /\
            (forall j y, (j < k)%nat -> nth_error (pre ++ l) j = Some y -> (y < v)%Q).
Proof.
  revert pre best_i best.
  induction l as [|x r IH]; intros pre best_i best Hbest Hmax Hfirst; cbn [argmax_from].
  - rewrite app_nil_r. now exists best.
  - assert (Hlt : (best_i < length pre)%nat) by (apply nth_error_Some; congruence).
    replace (pre ++ x :: r) with ((pre ++ [x]) ++ r) by (now rewrite <- app_assoc).
    replace (S (length pre)) with (length (pre ++ [x]))
      by (rewrite length_app; simpl; lia).
    destruct (Qltb best x) eqn:E.
    + apply Qltb_lt in E. apply IH.
      * rewrite nth_error_app2, Nat.sub_diag by lia. reflexivity.
      * intros y Hy. apply in_app_or in Hy. destruct Hy as [Hy|[<-|[]]].
        -- apply Qle_trans with best; [now apply Hmax | now apply Qlt_le_weak].
        -- apply Qle_refl.
      * intros j y Hj Hy. rewrite nth_error_app1 in Hy by exact Hj.
        apply Qle_lt_trans with best; [|exact E].
        apply Hmax. eapply nth_error_In; eauto.
    + apply Qltb_ge in E. apply IH.
      * rewrite nth_error_app1 by exact Hlt. exact Hbest.
      * intros y Hy. apply in_app_or in Hy. destruct Hy as [Hy|[<-|[]]];
          [now apply Hmax | exact E].
      * intros j y Hj Hy. rewrite nth_error_app1 in Hy by lia. eauto.
Qed.

(** On a non-empty list [argmax] answers, with the first index of a maximum. *)
Lemma argmax_spec (l : list Q) :
  l <> [] ->
  exists k v, argmax l = Some k /\ nth_error l k = Some v /\
              (forall y, In y l -> (y <= v)%Q) /\
              (forall j y, (j < k)%nat -> nth_error l j = Some y -> (y < v)%Q).
Proof.
  destruct l as [|x r]; [congruence|]. intros _.
  destruct (argmax_from_spec r [x] 0 x) as [v Hv].
  - reflexivity.
  - intros y [<-|[]]. apply Qle_refl.
  - intros j y Hj. lia.
  - exists (argmax_from 0 x 1 r), v. split; [reflexivity | exact Hv].
Qed.

(** ** Decomposition into parts *)

Lemma fold_append {A} (l acc : list A) :
  fold_left (fun acc part => acc ++ [part]) l acc = acc ++ l.
Proof.
  revert acc. induction l as [|a l IH]; intro acc; simpl.
  - now rewrite app_nil_r.
  - rewrite IH, <- app_assoc. reflexivity.
Qed.

Lemma add_parts_app (parts : list Geometry) (geom : option Geometry) :
  add_parts parts geom = parts ++ parts_of geom.
Proof.
  destruct geom as [g|]; simpl.
  - destruct (is_multipart g); [apply fold_append | reflexivity].
  - now rewrite app_nil_r.
Qed.

Lemma collect_parts_from (geometries : list (option Geometry)) (acc : list Geometry) :
  fold_left add_parts geometries acc = acc ++ flat_map parts_of geometries.
Proof.
  revert acc. induction geometries as [|g l IH]; intro acc; simpl.
  - now rewrite app_nil_r.
  - rewrite IH, add_parts_app, <- app_assoc. reflexivity.
Qed.

(** The loop gathers, in order, what each geometry contributes. *)
Lemma collect_parts_flat (geometries : list (option Geometry)) :
  collect_parts geometries = flat_map parts_of geometries.
Proof. unfold collect_parts. now rewrite collect_parts_from. Qed.

Lemma geom_type_map_coords (f : coord -> coord) (g : Geometry) :
  geom_type (map_coords f g) = geom_type g.
Proof. destruct g; reflexivity. Qed.

Lemma geoms_map_coords (f : coord -> coord) (g : Geometry) :
  is_multipart g = true ->
  geoms (map_coords f g) = map (map_coords f) (geoms g).
Proof.
  destruct g; try discriminate; intros _; simpl.
  - now rewrite !map_map.
  - reflexivity.
Qed.

Lemma parts_of_map_coords (f : coord -> coord) (geom : option Geometry) :
  parts_of (option_map (map_coords f) geom) = map (map_coords f) (parts_of geom).
Proof.
  destruct geom as [g|]; simpl; [|reflexivity].
  unfold is_multipart. rewrite geom_type_map_coords.
  fold (is_multipart g). destruct (is_multipart g) eqn:E.
  - now apply geoms_map_coords.
  - reflexivity.
Qed.

Lemma parts_of_memberless (geom : option Geometry) :
  parts_of geom = [] <-> memberless geom.
Proof.
  unfold memberless. split.
  - destruct geom as [g|]; [|now left].
    destruct g as [| | | | |ps|gs]; simpl; try discriminate.
    + destruct ps; [now right; left | discriminate].
    + destruct gs; [now right; right | discriminate].
  - intros [->|[->| ->]]; reflexivity.
Qed.

(** ** Mainland extraction *)

Section MainlandFacts.

Variable transform : CRS -> CRS -> coord -> coord.
Variable area : Geometry -> Q.
Variable unary_union : list (option Geometry) -> Geometry.

(** The parts gathered from the selection once it is in EPSG:3857. *)
Local Abbreviation parts_3857 sel :=
  (collect_parts (map geometry (rows (to_crs transform EPSG_3857 sel)))).

Lemma parts_reprojected (sel : GeoDataFrame Country) :
  parts_3857 sel =
  map (reproject transform (crs sel) EPSG_3857)
      (flat_map parts_of (map geometry (rows sel))).
Proof.
  rewrite collect_parts_flat.
  unfold to_crs. cbn [rows crs].
  induction (rows sel) as [|f l IH]; [reflexivity|].
  cbn [map flat_map geometry]. rewrite map_app, IH. f_equal.
  apply parts_of_map_coords.
Qed.

Lemma parts_none_iff (sel : GeoDataFrame Country) :
  parts_3857 sel = [] <->
  forall f, In f (rows sel) -> memberless (geometry f).
Proof.
  rewrite parts_reprojected. split.
  - intros H f Hf. apply parts_of_memberless.
    apply map_eq_nil in H.
    destruct (parts_of (geometry f)) as [|p ps] eqn:E; [reflexivity|].
    assert (Hin : In p (flat_map parts_of (map geometry (rows sel)))).
    { apply in_flat_map. exists (geometry f). split.
      - now apply in_map.
      - rewrite E. now left. }
    rewrite H in Hin. destruct Hin.
  - intro H. induction (rows sel) as [|f l IH]; [reflexivity|].
    cbn [map flat_map]. rewrite map_app.
    rewrite (proj2 (parts_of_memberless (geometry f))) by (apply H; now left).
    apply IH. intros g Hg. apply H. now right.
Qed.

Lemma extract_fallback (sel : GeoDataFrame Country) :
  parts_3857 sel = [] ->
  extract_mainland transform area unary_union sel =
    Some (mkMainland (Some (unary_union (map geometry (rows sel))))
                     (FullSelection sel)).
Proof.
  intro H. unfold extract_mainland. cbv zeta. now rewrite H.
Qed.

Lemma extract_largest (sel : GeoDataFrame Country) :
  parts_3857 sel <> [] ->
  exists k largest,
    nth_error (parts_3857 sel) k = Some largest /\
    (forall q, In q (parts_3857 sel) -> (area q <= area largest)%Q) /\
    (forall j q, (j < k)%nat -> nth_error (parts_3857 sel) j = Some q ->
                 (area q < area largest)%Q) /\
    extract_mainland transform area unary_union sel =
      Some (mkMainland
              (Some (reproject transform EPSG_3857 (crs sel) largest))
              (GeometryOnly
                 (mkFrame (crs sel)
                    [mkFeature tt
                       (Some (reproject transform EPSG_3857 (crs sel) largest))]))).
Proof.
  intro Hne.
  destruct (argmax_spec (map area (parts_3857 sel))) as [k [v [Hk [Hv [Hmax Hfirst]]]]].
  { intro E. apply map_eq_nil in E. contradiction. }
  rewrite nth_error_map in Hv.
  destruct (nth_error (parts_3857 sel) k) as [p|] eqn:Hp; [|discriminate].
  injection Hv as <-. exists k, p.
  split; [exact Hp|]. split; [|split].
  - intros q Hq. apply Hmax. now apply in_map.
  - intros j q Hj Hq. apply (Hfirst j); [exact Hj|].
    now rewrite nth_error_map, Hq.
  - unfold extract_mainland. cbv zeta.
    destruct (parts_3857 sel) as [|p0 ps] eqn:E; [contradiction|].
    cbn [length Nat.eqb]. rewrite Hk, Hp. reflexivity.
Qed.

Lemma country_parts_polygons (sel : GeoDataFrame Country) :
  (forall f, In f (rows sel) -> country_geometry (geometry f)) ->
  forall q, In q (parts_3857 sel) -> exists p, q = Polygon p.
Proof.
  intros Hpoly q Hq. rewrite parts_reprojected in Hq.
  apply in_map_iff in Hq. destruct Hq as [q0 [<- Hq0]].
  apply in_flat_map in Hq0. destruct Hq0 as [geom [Hg Hq0]].
  apply in_map_iff in Hg. destruct Hg as [f [<- Hf]].
  specialize (Hpoly f Hf).
  destruct (geometry f) as [g|]; [|destruct Hq0].
  destruct g; try contradiction; simpl in Hq0.
  - destruct Hq0 as [<-|[]]. eexists. reflexivity.
  - apply in_map_iff in Hq0. destruct Hq0 as [p [<- _]]. eexists. reflexivity.
Qed.

(** C1 (amended): when the selection, once in EPSG:3857, yields at least one
    part, the parts are the members of its multi-polygons and collections,
    one level down, and its other geometries taken whole, in order: single
    polygons when the selection holds polygons and multi-polygons, while the
    members of a collection are taken as they are; the part returned has the
    largest planar area, every earlier part is strictly smaller, and the
    result is that part brought back to the CRS of the selection. *)
Theorem extract_mainland_largest_part (selected_country : GeoDataFrame Country) :
  let selected_3857 := to_crs transform EPSG_3857 selected_country in
  let parts := collect_parts (map geometry (rows selected_3857)) in
  parts <> [] ->
  parts = flat_map parts_of (map geometry (rows selected_3857)) /\
  ((forall f, In f (rows selected_country) -> country_geometry (geometry f)) ->
   forall q, In q parts -> exists p, q = Polygon p) /\
  exists largest_idx largest,
    nth_error parts largest_idx = Some largest /\
    (forall q, In q parts -> (area q <= area largest)%Q) /\
    (forall j q, (j < largest_idx)%nat -> nth_error parts j = Some q ->
                 (area q < area largest)%Q) /\
    extract_mainland transform area unary_union selected_country =
      Some (mkMainland
              (Some (reproject transform EPSG_3857 (crs selected_country) largest))
              (GeometryOnly
                 (mkFrame (crs selected_country)
                    [mkFeature tt
                       (Some (reproject transform EPSG_3857 (crs selected_country)
                                largest))]))).
Proof.
  intros selected_3857 parts Hne. split; [apply collect_parts_flat|].
  split; [apply country_parts_polygons|].
  now apply extract_largest.
Qed.

End MainlandFacts.

Section MainlandShape.

Variable transform : CRS -> CRS -> coord -> coord.
Variable area : Geometry -> Q.
Variable unary_union : list (option Geometry) -> Geometry.

Local Abbreviation parts_3857 sel :=
  (collect_parts (map geometry (rows (to_crs transform EPSG_3857 sel)))).

(** C4 (amended): on a selection of polygons, multi-polygons and null
    geometries, the region keeps the CRS of the selection; when at least one
    part is found, the mask is one single polygon and the region is a frame of
    that one geometry; on the fallback branch the region is the selection
    itself, unchanged. *)
Theorem extract_mainland_single_polygon (selected_country : GeoDataFrame Country) :
  (forall f, In f (rows selected_country) -> country_geometry (geometry f)) ->
  exists m,
    extract_mainland transform area unary_union selected_country = Some m /\
    region_crs (mainland_gdf m) = crs selected_country /\
    (parts_3857 selected_country <> [] ->
     exists p,
       mainland_mask m = Some (Polygon p) /\
       mainland_gdf m =
         GeometryOnly (mkFrame (crs selected_country)
                               [mkFeature tt (Some (Polygon p))]) /\
       region_geometries (mainland_gdf m) = [Some (Polygon p)]) /\
    (parts_3857 selected_country = [] ->
     mainland_gdf m = FullSelection selected_country).
Proof.
  intro Hpoly.
  destruct (parts_3857 selected_country) as [|p0 ps] eqn:E.
  - eexists. split; [now apply extract_fallback|].
    split; [reflexivity|]. split; [congruence | reflexivity].
  - destruct (extract_largest transform area unary_union selected_country)
      as [k [largest [Hk [_ [_ Hres]]]]]; [now rewrite E|].
    eexists. split; [exact Hres|]. split; [reflexivity|].
    split; [|discriminate].
    intros _.
    destruct (country_parts_polygons transform selected_country Hpoly largest)
      as [p ->].
    + eapply nth_error_In. exact Hk.
    + exists (map_polygon (transform EPSG_3857 (crs selected_country)) p).
      repeat split.
Qed.

(** C7 (amended): when every geometry of the selection is null or is a
    multi-polygon or collection without members, no part is found and the
    block returns, without raising, the union of the original geometries as
    the mask and the original selection as the region. *)
Theorem extract_mainland_fallback (selected_country : GeoDataFrame Country) :
  (forall f, In f (rows selected_country) -> memberless (geometry f)) ->
  parts_3857 selected_country = [] /\
  extract_mainland transform area unary_union selected_country =
    Some (mkMainland
            (Some (unary_union (map geometry (rows selected_country))))
            (FullSelection selected_country)).
Proof.
  intro H. apply (parts_none_iff transform) in H.
  split; [exact H | now apply extract_fallback].
Qed.

Lemma collect_parts_skip_null (geometries : list (option Geometry)) :
  collect_parts geometries = collect_parts (filter non_null geometries).
Proof.
  rewrite !collect_parts_flat.
  induction geometries as [|g l IH]; [reflexivity|].
  destruct g as [g|]; simpl.
  - now rewrite IH.
  - exact IH.
Qed.

Lemma part_origin (sel : GeoDataFrame Country) (q : Geometry) :
  In q (parts_3857 sel) ->
  exists f g, In f (rows sel) /\ geometry f = Some g /\
              In q (parts_of (Some (reproject transform (crs sel) EPSG_3857 g))).
Proof.
  rewrite collect_parts_flat. intro Hq.
  apply in_flat_map in Hq. destruct Hq as [geom [Hg Hq]].
  unfold to_crs in Hg. cbn [rows] in Hg. rewrite map_map in Hg.
  apply in_map_iff in Hg. destruct Hg as [f [<- Hf]]. cbn [geometry] in Hq.
  destruct (geometry f) as [g|] eqn:Eg; [|destruct Hq].
  now exists f, g.
Qed.

(** C10: null geometries are passed over by the decomposition, the block
    never raises, the mask it returns is never null, the fallback branch is
    taken only when every geometry is null or has no member, and otherwise
    the mainland is a part of some non-null geometry of the selection. *)
Theorem extract_mainland_skips_null (selected_country : GeoDataFrame Country) :
  let geometries := map geometry (rows (to_crs transform EPSG_3857 selected_country)) in
  collect_parts geometries = collect_parts (filter non_null geometries) /\
  exists m,
    extract_mainland transform area unary_union selected_country = Some m /\
    mainland_mask m <> None /\
    (forall gdf, mainland_gdf m = FullSelection gdf ->
       gdf = selected_country /\
       forall f, In f (rows selected_country) -> memberless (geometry f)) /\
    ((exists f, In f (rows selected_country) /\ ~ memberless (geometry f)) ->
     exists f g largest,
       In f (rows selected_country) /\ geometry f = Some g /\
       In largest
          (parts_of (Some (reproject transform (crs selected_country)
                             EPSG_3857 g))) /\
       mainland_mask m =
         Some (reproject transform EPSG_3857 (crs selected_country) largest)).
Proof.
  intro geometries. split; [apply collect_parts_skip_null|].
  destruct (parts_3857 selected_country) as [|p0 ps] eqn:E.
  - eexists. split; [now apply extract_fallback|].
    split; [discriminate|]. split.
    + intros gdf H. injection H as <-. split; [reflexivity|].
      now apply (parts_none_iff transform).
    + intros [f [Hf Hn]]. exfalso. apply Hn.
      now apply (parts_none_iff transform selected_country).
  - destruct (extract_largest transform area unary_union selected_country)
      as [k [largest [Hk [_ [_ Hres]]]]]; [now rewrite E|].
    eexists. split; [exact Hres|]. split; [discriminate|]. split.
    + intros gdf H. discriminate.
    + intros _.
      destruct (part_origin selected_country largest) as [f [g [Hf [Hg Hin]]]].
      * eapply nth_error_In. exact Hk.
      * exists f, g, largest. repeat split; assumption.
Qed.

End MainlandShape.

(** C4 (as first stated) fails on the fallback branch: a selection of two
    features without geometry comes back whole, two rows and no polygon. *)
Lemma extract_mainland_fallback_not_single :
  rows null_country <> [] /\
  extract_mainland equirect planar_area gather_union null_country =
    Some (mkMainland (Some (GeometryCollection [])) (FullSelection null_country)) /\
  region_geometries (FullSelection null_country) = [None; None].
Proof.
  split; [discriminate | split; reflexivity].
Qed.

Lemma extract_mainland_single_polygon_witness :
  exists m,
    extract_mainland equirect planar_area gather_union archipelago = Some m /\
    region_crs (mainland_gdf m) = EPSG_4326 /\
    exists p, region_geometries (mainland_gdf m) = [Some (Polygon p)].
Proof.
  destruct (extract_mainland_single_polygon equirect planar_area gather_union
              archipelago) as [m [Hm [Hcrs [Hpart _]]]].
  - intros f Hf. simpl in Hf.
    destruct Hf as [<-|[<-|[<-|[<-|[]]]]]; exact I.
  - exists m. split; [exact Hm|]. split; [exact Hcrs|].
    destruct Hpart as [p [_ [_ Hp]]]; [discriminate|].
    now exists p.
Defined.

(** C7 (as first stated) fails on an empty polygon: the geometry is empty,
    yet it is appended as a part and returned as the mainland; the fallback
    is not taken. *)
Lemma extract_mainland_empty_polygon :
  forallb (fun f => null_or_empty (geometry f)) (rows hollow_country) = true /\
  extract_mainland equirect planar_area gather_union hollow_country =
    Some (mkMainland (Some empty_polygon)
            (GeometryOnly (mkFrame EPSG_4326 [mkFeature tt (Some empty_polygon)]))).
Proof.
  split; reflexivity.
Qed.

Lemma extract_mainland_fallback_witness :
  extract_mainland equirect planar_area gather_union vacant_country =
    Some (mkMainland
            (Some (GeometryCollection [MultiPolygon []; GeometryCollection []]))
            (FullSelection vacant_country)).
Proof.
  refine (proj2 (extract_mainland_fallback equirect planar_area gather_union
                   vacant_country _)).
  intros f Hf. simpl in Hf. unfold memberless.
  destruct Hf as [<-|[<-|[<-|[]]]]; simpl; auto.
Defined.

(** C1 (as first stated) fails on a collection that holds a multi-polygon:
    the collection is opened one level only, its multi-polygon is a part
    like any other, and being the largest it is returned as the mainland, two
    polygons in one geometry. *)
Lemma extract_mainland_multipolygon_part :
  length (collect_parts
            (map geometry (rows (to_crs equirect EPSG_3857 nested_collection))))
    = 2%nat /\
  option_map (fun m => option_map geom_type (mainland_mask m))
    (extract_mainland equirect planar_area gather_union nested_collection)
    = Some (Some "MultiPolygon") /\
  option_map (fun m => option_map (fun g => length (geoms g)) (mainland_mask m))
    (extract_mainland equirect planar_area gather_union nested_collection)
    = Some (Some 2%nat).
Proof. repeat split. Qed.

Lemma extract_mainland_largest_part_witness :
  exists largest,
    In largest
       (collect_parts (map geometry (rows (to_crs equirect EPSG_3857 archipelago)))) /\
    (planar_area (reproject equirect EPSG_4326 EPSG_3857 (Polygon (square 9 9 2)))
     <= planar_area largest)%Q /\
    extract_mainland equirect planar_area gather_union archipelago =
      Some (mkMainland
              (Some (reproject equirect EPSG_3857 EPSG_4326 largest))
              (GeometryOnly
                 (mkFrame EPSG_4326
                    [mkFeature tt
                       (Some (reproject equirect EPSG_3857 EPSG_4326 largest))]))).
Proof.
  destruct (extract_mainland_largest_part equirect planar_area gather_union
              archipelago) as [_ [_ [k [largest [Hk [Hmax [_ H]]]]]]].
  - discriminate.
  - exists largest. split; [eapply nth_error_In; exact Hk|].
    split; [|exact H].
    apply Hmax. vm_compute. auto.
Defined.

(** ** Frames of rivers: columns and [assign] *)

Lemma get_set_field_same (name : string) (v : cell) (fs : list (string * cell)) :
  get_field name (set_field name v fs) = v.
Proof.
  induction fs as [|[k w] r IH]; simpl.
  - now rewrite String.eqb_refl.
  - destruct (String.eqb k name) eqn:E; simpl; rewrite E; [reflexivity | exact IH].
Qed.

Lemma get_set_field_other (c name : string) (v : cell) (fs : list (string * cell)) :
  c <> name -> get_field c (set_field name v fs) = get_field c fs.
Proof.
  intro Hc. induction fs as [|[k w] r IH]; simpl.
  - apply not_eq_sym in Hc. apply String.eqb_neq in Hc. now rewrite Hc.
  - destruct (String.eqb k name) eqn:E; simpl.
    + apply String.eqb_eq in E. subst k.
      apply not_eq_sym in Hc. apply String.eqb_neq in Hc. now rewrite Hc.
    + now rewrite IH.
Qed.

Lemma has_column_In (name : string) (gdf : RiverFrame) :
  has_column name gdf = true <-> In name (columns gdf).
Proof.
  unfold has_column. rewrite existsb_exists. split.
  - intros [c [Hc E]]. apply String.eqb_eq in E. now subst.
  - intro H. exists name. split; [exact H | apply String.eqb_refl].
Qed.

Lemma assign_rows (name : string) (rs : list River) (values : list cell) :
  length values = length rs ->
  Forall2 (annotated name) rs
    (map (fun rv => mkRiver (set_field name (snd rv) (fields (fst rv)))
                            (line (fst rv)))
         (combine rs values)) /\
  map (fun r => get_field name (fields r))
    (map (fun rv => mkRiver (set_field name (snd rv) (fields (fst rv)))
                            (line (fst rv)))
         (combine rs values)) = values.
Proof.
  revert values. induction rs as [|r rs IH]; intros [|v vs] Hlen;
    try discriminate; simpl.
  - split; [constructor | reflexivity].
  - injection Hlen as Hlen. destruct (IH vs Hlen) as [H1 H2]. split.
    + constructor; [|exact H1]. split; [reflexivity | now exists v].
    + now rewrite get_set_field_same, H2.
Qed.

Lemma annotated_rows (name : string) (rs rs' : list River) :
  Forall2 (annotated name) rs rs' ->
  length rs' = length rs /\
  map line rs' = map line rs /\
  forall c, c <> name ->
    map (fun r => get_field c (fields r)) rs' =
    map (fun r => get_field c (fields r)) rs.
Proof.
  induction 1 as [|r r' rs rs' [Hl [v Hv]] _ [IH1 [IH2 IH3]]]; simpl.
  - repeat split.
  - split; [now rewrite IH1|]. split; [now rewrite Hl, IH2|].
    intros c Hc. now rewrite Hv, get_set_field_other, IH3.
Qed.

(** ** The size metric *)

Lemma traverse_length {A B} (f : A -> option B) (l : list A) (bs : list B) :
  traverse f l = Some bs -> length bs = length l.
Proof.
  revert bs. induction l as [|a l IH]; simpl; intros bs H.
  - now injection H as <-.
  - destruct (f a); [|discriminate].
    destruct (traverse f l) as [bs'|]; [|discriminate].
    injection H as <-. simpl. now rewrite (IH bs').
Qed.

Lemma traverse_nth {A B} (f : A -> option B) (l : list A) (bs : list B) :
  traverse f l = Some bs ->
  forall i a, nth_error l i = Some a ->
  exists b, f a = Some b /\ nth_error bs i = Some b.
Proof.
  revert bs. induction l as [|a0 l IH]; simpl; intros bs H i a Hi.
  - destruct i; discriminate.
  - destruct (f a0) as [b0|] eqn:E0; [|discriminate].
    destruct (traverse f l) as [bs'|]; [|discriminate].
    injection H as <-. destruct i as [|i]; simpl in *.
    + injection Hi as <-. now exists b0.
    + now apply (IH bs').
Qed.

Lemma traverse_total {A B} (f : A -> option B) (l : list A) :
  (forall a, In a l -> f a <> None) -> exists bs, traverse f l = Some bs.
Proof.
  induction l as [|a l IH]; simpl; intro H.
  - now exists [].
  - destruct (f a) as [b|] eqn:E; [|exfalso; apply (H a); auto].
    destruct IH as [bs Hbs]; [intros x Hx; apply H; now right|].
    rewrite Hbs. now exists (b :: bs).
Qed.

Lemma fillna_float_numeric (c : cell) :
  numeric c -> fillna_float c = Some (upland_or_zero c).
Proof. destruct c; simpl; [reflexivity | reflexivity | contradiction]. Qed.

Lemma Qmax_ge (a b : Q) : (a <= Qmax a b)%Q /\ (b <= Qmax a b)%Q.
Proof.
  unfold Qmax. destruct (Qle_bool a b) eqn:E.
  - apply Qle_bool_iff in E. split; [exact E | apply Qle_refl].
  - split; [apply Qle_refl|].
    apply Qlt_le_weak, Qnot_le_lt. intro H. apply Qle_bool_iff in H. congruence.
Qed.

Lemma fold_Qmax_ge (l : list Q) (x : Q) :
  (x <= fold_left Qmax l x)%Q /\
  forall y, In y l -> (y <= fold_left Qmax l x)%Q.
Proof.
  revert x. induction l as [|a l IH]; intro x; simpl.
  - split; [apply Qle_refl | intros y []].
  - destruct (IH (Qmax x a)) as [H1 H2]. destruct (Qmax_ge x a) as [Hx Ha]. split.
    + now apply Qle_trans with (Qmax x a).
    + intros y [<-|Hy]; [now apply Qle_trans with (Qmax x a) | now apply H2].
Qed.

Lemma fold_Qmax_In (l : list Q) (x : Q) :
  fold_left Qmax l x = x \/ In (fold_left Qmax l x) l.
Proof.
  revert x. induction l as [|a l IH]; intro x; simpl; [now left|].
  destruct (IH (Qmax x a)) as [H|H]; [|now right; right].
  rewrite H. unfold Qmax. destruct (Qle_bool x a); [right; now left | now left].
Qed.

(** [Series.max] is an element of the series and bounds every element. *)
Lemma series_max_spec (l : list Q) (m : Q) :
  series_max l = Some m -> In m l /\ forall y, In y l -> (y <= m)%Q.
Proof.
  destruct l as [|x r]; [discriminate|]. simpl. intro H. injection H as <-.
  destruct (fold_Qmax_ge r x) as [H1 H2]. split.
  - destruct (fold_Qmax_In r x) as [-> | H]; [now left | now right].
  - intros y [<-|Hy]; [exact H1 | now apply H2].
Qed.

(** ** [pd.cut] on the three size bins *)

Ltac bins_cases :=
  unfold cut1, size_bins, size_labels; cbn [searchsorted_left length];
  repeat match goal with
  | |- context [Qltb ?b ?x] =>
      let E := fresh "E" in
      destruct (Qltb b x) eqn:E;
      [apply Qltb_lt in E | apply Qltb_ge in E]
  end;
  try reflexivity; exfalso; lra.

Lemma cut1_small (x : Q) :
  (-(1) < x)%Q -> (x <= 0.33)%Q -> cut1 size_bins size_labels x = Cat small.
Proof. intros H1 H2. bins_cases. Qed.

Lemma cut1_medium (x : Q) :
  (0.33 < x)%Q -> (x <= 0.66)%Q -> cut1 size_bins size_labels x = Cat medium.
Proof. intros H1 H2. bins_cases. Qed.

Lemma cut1_large (x : Q) :
  (0.66 < x)%Q -> (x <= 1.0)%Q -> cut1 size_bins size_labels x = Cat large.
Proof. intros H1 H2. bins_cases. Qed.

Lemma cut1_below (x : Q) :
  (x <= -(1))%Q -> cut1 size_bins size_labels x = NaN.
Proof. intros H1. bins_cases. Qed.

Lemma cut1_above (x : Q) :
  (1.0 < x)%Q -> cut1 size_bins size_labels x = NaN.
Proof. intros H1. bins_cases. Qed.

(** ** Classification *)

Section ClassifierFacts.

Variable geom_length : Geometry -> Q.


Lemma size_metric_length (rivers : RiverFrame) (metric : list Q) :
  size_metric geom_length rivers = Some metric ->
  length metric = length (river_rows rivers).
Proof.
  unfold size_metric. destruct (has_column "UPLAND_SKM" rivers).
  - intro H. apply traverse_length in H. unfold column in H.
    now rewrite length_map in H.
  - intro H. injection H as <-. apply length_map.
Qed.

Lemma relative_length (metric : list Q) :
  length (relative metric) = length metric.
Proof.
  unfold relative. destruct (series_max metric) as [m|]; [|reflexivity].
  destruct (Qltb 0 m); [apply length_map | reflexivity].
Qed.

Lemma relative_positive (metric : list Q) (m : Q) :
  series_max metric = Some m -> (0 < m)%Q ->
  relative metric = map (fun x => x / m)%Q metric.
Proof.
  intros Hm Hpos. unfold relative. rewrite Hm.
  apply Qltb_lt in Hpos. now rewrite Hpos.
Qed.

Lemma relative_degenerate (metric : list Q) :
  (forall m, series_max metric = Some m -> (m <= 0)%Q) ->
  relative metric = metric.
Proof.
  intro H. unfold relative. destruct (series_max metric) as [m|]; [|reflexivity].
  specialize (H m eq_refl). apply Qltb_ge in H. now rewrite H.
Qed.

(** What [classify] builds from a metric: the input rows, each with its
    [_size_cat] written, and the categories cut from the relative metric. *)
Lemma classify_from_metric (rivers : RiverFrame) (metric : list Q) :
  size_metric geom_length rivers = Some metric ->
  exists out,
    classify geom_length rivers = Some out /\
    size_classes out = cut (relative metric) size_bins size_labels /\
    Forall2 (annotated "_size_cat") (river_rows rivers) (river_rows out) /\
    river_crs out = river_crs rivers /\
    columns out = (if has_column "_size_cat" rivers then columns rivers
                   else columns rivers ++ ["_size_cat"]).
Proof.
  intro Hm. unfold classify. rewrite Hm. cbv zeta.
  eexists. split; [reflexivity|].
  destruct (assign_rows "_size_cat" (river_rows rivers)
              (cut (relative metric) size_bins size_labels)) as [H1 H2].
  { unfold cut. rewrite length_map, relative_length.
    now apply size_metric_length. }
  split; [exact H2|]. split; [exact H1|]. split; reflexivity.
Qed.

Lemma cut_nth (xs : list Q) (i : nat) (x : Q) :
  nth_error xs i = Some x ->
  nth_error (cut xs size_bins size_labels) i =
    Some (cut1 size_bins size_labels x).
Proof.
  intro H. unfold cut. now rewrite nth_error_map, H.
Qed.

(** With no positive maximum the raw metric is binned as it is; a value
    above -1 is then small, and a frame of zeros is small throughout. *)
Lemma classify_degenerate (rivers : RiverFrame) (metric : list Q) :
  size_metric geom_length rivers = Some metric ->
  (forall m, series_max metric = Some m -> (m <= 0)%Q) ->
  exists out,
    classify geom_length rivers = Some out /\
    relative metric = metric /\
    forall i x, nth_error metric i = Some x ->
      ((-(1) < x)%Q -> nth_error (size_classes out) i = Some (Cat small)) /\
      ((x <= -(1))%Q -> nth_error (size_classes out) i = Some NaN).
Proof.
  intros Hm Hmax.
  destruct (classify_from_metric rivers metric Hm) as [out [Hout [Hcls _]]].
  exists out. split; [exact Hout|].
  pose proof (relative_degenerate metric Hmax) as Hrel.
  split; [exact Hrel|]. intros i x Hx.
  rewrite Hcls, Hrel, (cut_nth _ _ _ Hx). split; intro H; f_equal.
  - apply cut1_small; [exact H|].
    destruct (series_max metric) as [m|] eqn:E.
    + destruct (series_max_spec metric m E) as [_ Hle].
      specialize (Hmax m eq_refl).
      assert (x <= m)%Q by (apply Hle; eapply nth_error_In; eauto). lra.
    + destruct metric; [destruct i; discriminate | discriminate].
  - now apply cut1_below.
Qed.

(** C5 (the code departs from the claim): with upstream areas -2 and -5 the
    maximum is -2, not positive, so the raw values are binned as they are;
    both lie at or below the lowest edge -1 and get no class at all, where
    the claim puts every feature in small.  A frame of zeros is classed
    small throughout. *)
Theorem classify_negative_metric :
  size_metric geom_length (rivers_with [Num (-2); Num (-5)]) = Some [-2; -5]%Q /\
  series_max [-2; -5]%Q = Some (-2)%Q /\
  relative [-2; -5]%Q = [-2; -5]%Q /\
  option_map size_classes (classify geom_length (rivers_with [Num (-2); Num (-5)])) =
    Some [NaN; NaN] /\
  option_map size_classes (classify geom_length (rivers_with [Num 0; NaN; Num 0])) =
    Some [Cat small; Cat small; Cat small].
Proof. repeat split. Qed.

End ClassifierFacts.

(** ** The size bins on doubles *)












Section ClassifierFrame.

Variable geom_length : Geometry -> Q.


Lemma classify_assign (rivers : RiverFrame) (metric : list Q) :
  size_metric geom_length rivers = Some metric ->
  classify geom_length rivers =
    Some (assign "_size_cat" (cut (relative metric) size_bins size_labels) rivers).
Proof.
  intro H. unfold classify. now rewrite H.
Qed.

(** C6: the metric follows the schema.  With an [UPLAND_SKM] column (holding
    numbers and nulls) each feature's metric is its value there, a null
    counting as zero; without that column it is the length of the feature's
    geometry, in the CRS the frame is in.  That metric is the one binned. *)
Theorem size_metric_by_schema (rivers_3857 : RiverFrame) :
  (In "UPLAND_SKM" (columns rivers_3857) ->
   (forall r, In r (river_rows rivers_3857) ->
              numeric (get_field "UPLAND_SKM" (fields r))) ->
   exists metric,
     size_metric geom_length rivers_3857 = Some metric /\
     classify geom_length rivers_3857 =
       Some (assign "_size_cat" (cut (relative metric) size_bins size_labels)
                    rivers_3857) /\
     length metric = length (river_rows rivers_3857) /\
     forall i r, nth_error (river_rows rivers_3857) i = Some r ->
       (get_field "UPLAND_SKM" (fields r) = NaN -> nth_error metric i = Some 0%Q) /\
       (forall q, get_field "UPLAND_SKM" (fields r) = Num q ->
                  nth_error metric i = Some q)) /\
  (~ In "UPLAND_SKM" (columns rivers_3857) ->
   exists metric,
     size_metric geom_length rivers_3857 = Some metric /\
     classify geom_length rivers_3857 =
       Some (assign "_size_cat" (cut (relative metric) size_bins size_labels)
                    rivers_3857) /\
     length metric = length (river_rows rivers_3857) /\
     forall i r, nth_error (river_rows rivers_3857) i = Some r ->
       nth_error metric i = Some (geom_length (line r))).
Proof.
  split.
  - intros Hcol Hnum. apply has_column_In in Hcol.
    destruct (traverse_total fillna_float (column "UPLAND_SKM" rivers_3857))
      as [metric Hm].
    { intros c Hc. unfold column in Hc. apply in_map_iff in Hc.
      destruct Hc as [r [<- Hr]].
      rewrite (fillna_float_numeric _ (Hnum r Hr)). discriminate. }
    assert (Hsm : size_metric geom_length rivers_3857 = Some metric)
      by (unfold size_metric; now rewrite Hcol).
    exists metric. split; [exact Hsm|]. split; [now apply classify_assign|].
    split; [now apply size_metric_length with geom_length|].
    intros i r Hr.
    destruct (traverse_nth _ _ _ Hm i (get_field "UPLAND_SKM" (fields r)))
      as [b [Hb Hi]].
    { unfold column. now rewrite nth_error_map, Hr. }
    split.
    + intro E. rewrite E in Hb. simpl in Hb. congruence.
    + intros q E. rewrite E in Hb. simpl in Hb. congruence.
  - intro Hcol.
    assert (E : has_column "UPLAND_SKM" rivers_3857 = false).
    { destruct (has_column "UPLAND_SKM" rivers_3857) eqn:E; [|reflexivity].
      apply has_column_In in E. contradiction. }
    assert (Hsm : size_metric geom_length rivers_3857 =
                  Some (map (fun r => geom_length (line r)) (river_rows rivers_3857)))
      by (unfold size_metric; now rewrite E).
    eexists. split; [exact Hsm|]. split; [now apply classify_assign|].
    split; [apply length_map|].
    intros i r Hr. now rewrite nth_error_map, Hr.
Qed.

(** C8: a classified frame has the rows of its input, as many and in the
    same order, each with its geometry and every field as before except the
    [_size_cat] it receives; the CRS stays, and [_size_cat] is the only column
    that may be new. *)
Theorem classify_preserves_features (rivers_3857 out : RiverFrame) :
  classify geom_length rivers_3857 = Some out ->
  length (river_rows out) = length (river_rows rivers_3857) /\
  map line (river_rows out) = map line (river_rows rivers_3857) /\
  (forall c, c <> "_size_cat" -> column c out = column c rivers_3857) /\
  Forall2 (annotated "_size_cat") (river_rows rivers_3857) (river_rows out) /\
  length (size_classes out) = length (river_rows rivers_3857) /\
  river_crs out = river_crs rivers_3857 /\
  (forall c, In c (columns rivers_3857) -> In c (columns out)) /\
  (forall c, In c (columns out) ->
             In c (columns rivers_3857) \/ c = "_size_cat").
Proof.
  intro H.
  destruct (size_metric geom_length rivers_3857) as [metric|] eqn:Hm;
    [|unfold classify in H; rewrite Hm in H; discriminate].
  destruct (classify_from_metric geom_length rivers_3857 metric Hm)
    as [out' [Hout [Hcls [Hrows [Hcrs Hcols]]]]].
  rewrite H in Hout. injection Hout as <-.
  destruct (annotated_rows _ _ _ Hrows) as [Hlen [Hline Hother]].
  split; [exact Hlen|]. split; [exact Hline|]. split; [exact Hother|].
  split; [exact Hrows|]. split.
  { unfold size_classes, column. now rewrite length_map. }
  split; [exact Hcrs|]. rewrite Hcols.
  destruct (has_column "_size_cat" rivers_3857); split; intros c Hc.
  - exact Hc.
  - now left.
  - apply in_or_app. now left.
  - apply in_app_or in Hc. destruct Hc as [Hc|[<-|[]]]; [now left | now right].
Qed.

(** [classify] raises only when the [UPLAND_SKM] column holds categories. *)
Lemma classify_total (rivers_3857 : RiverFrame) :
  (forall r, In r (river_rows rivers_3857) ->
             numeric (get_field "UPLAND_SKM" (fields r))) ->
  exists out, classify geom_length rivers_3857 = Some out.
Proof.
  intro Hnum.
  destruct (size_metric geom_length rivers_3857) as [metric|] eqn:Hm.
  - eexists. apply classify_assign. exact Hm.
  - exfalso. unfold size_metric in Hm.
    destruct (has_column "UPLAND_SKM" rivers_3857); [|discriminate].
    destruct (traverse_total fillna_float (column "UPLAND_SKM" rivers_3857))
      as [bs Hbs]; [|congruence].
    intros c Hc. unfold column in Hc. apply in_map_iff in Hc.
    destruct Hc as [r [<- Hr]].
    rewrite (fillna_float_numeric _ (Hnum r Hr)). discriminate.
Qed.

End ClassifierFrame.

Lemma size_metric_by_schema_witness :
  (exists metric,
     size_metric taxicab_length (rivers_with [NaN; Num 250]) = Some metric /\
     nth_error metric 0 = Some 0%Q /\ nth_error metric 1 = Some 250%Q) /\
  (exists metric,
     size_metric taxicab_length
       (lengths_only [LineString [(0, 0); (3, 4)]%Q]) = Some metric /\
     nth_error metric 0 =
       Some (taxicab_length (LineString [(0, 0); (3, 4)]%Q))).
Proof.
  split.
  - destruct (proj1 (size_metric_by_schema taxicab_length
                       (rivers_with [NaN; Num 250])))
      as [metric [Hm [_ [_ Hi]]]].
    + simpl. auto.
    + intros r Hr. simpl in Hr. destruct Hr as [<-|[<-|[]]]; exact I.
    + exists metric. split; [exact Hm|]. split.
      * now apply (proj1 (Hi 0%nat _ eq_refl)).
      * now apply (proj2 (Hi 1%nat _ eq_refl)).
  - destruct (proj2 (size_metric_by_schema taxicab_length
                       (lengths_only [LineString [(0, 0); (3, 4)]%Q])))
      as [metric [Hm [_ [_ Hi]]]].
    + simpl. intros [H|[]]. discriminate.
    + exists metric. split; [exact Hm|]. exact (Hi 0%nat _ eq_refl).
Defined.

Lemma classify_preserves_features_witness :
  exists out,
    classify taxicab_length (rivers_with [Num 10; Num 500; Num 1000]) = Some out /\
    length (river_rows out) = 3%nat /\
    column "UPLAND_SKM" out = [Num 10; Num 500; Num 1000] /\
    column "HYRIV_ID" out = [Num 1; Num 1; Num 1].
Proof.
  destruct (classify_total taxicab_length
              (rivers_with [Num 10; Num 500; Num 1000])) as [out Hout].
  - intros r Hr. simpl in Hr. destruct Hr as [<-|[<-|[<-|[]]]]; exact I.
  - destruct (classify_preserves_features taxicab_length _ out Hout)
      as [Hlen [_ [Hcol _]]].
    exists out. split; [exact Hout|]. split; [exact Hlen|].
    split; rewrite Hcol by discriminate; reflexivity.
Defined.

(* ================================================================== *)
(** * Further properties of the code *)

(** ** Queries that differ in case or padding *)








Lemma blank_app (a b : string) :
  blank (a ++ b)%string = blank a && blank b.
Proof.
  unfold blank. induction a as [|c a IH]; simpl; [reflexivity|].
  now rewrite IH, andb_assoc.
Qed.






Section ResolverShape.

Variable re_compile : string -> option (string -> bool).




(** X2: when some feature that is not a dependency bears the queried name, up to
    case and padding, the selection is exactly the features that do, and the
    query is never compiled as a pattern: this holds whatever the regex
    engine makes of it. *)
Theorem resolve_exact_precedence
    (country_gdf : GeoDataFrame Country) (q : string) (f0 : Feature Country) :
  In f0 (rows country_gdf) ->
  lower (SOVEREIGNT (attrs f0)) = lower (strip q) ->
  TYPE (attrs f0) <> "Dependency" ->
  exists sel,
    resolve re_compile country_gdf q = Selected sel /\
    crs sel = crs country_gdf /\
    rows sel = filter (exact_match (strip q)) (rows country_gdf) /\
    forall f, In f (rows sel) <->
              In f (rows country_gdf) /\
              lower (SOVEREIGNT (attrs f)) = lower (strip q) /\
              TYPE (attrs f) <> "Dependency".
Proof.
  intros Hin Hname Hty.
  assert (Hex : forall f, exact_match (strip q) f = true <->
                  lower (SOVEREIGNT (attrs f)) = lower (strip q) /\
                  TYPE (attrs f) <> "Dependency").
  { intro f. unfold exact_match, not_dependency.
    rewrite andb_true_iff, negb_true_iff, String.eqb_eq, String.eqb_neq.
    reflexivity. }
  assert (E : empty (select (exact_match (strip q)) country_gdf) = false).
  { apply empty_select_false. exists f0. split; [exact Hin|].
    apply Hex. now split. }
  exists (select (exact_match (strip q)) country_gdf).
  unfold resolve. cbv zeta. rewrite E.
  split; [reflexivity|]. split; [reflexivity|]. split; [reflexivity|].
  intro f. cbn [select rows]. rewrite filter_In, Hex. reflexivity.
Qed.

(** X3: a selection that comes back is never empty, keeps the CRS of the dataset,
    lists dataset rows in dataset order, and holds no dependency. *)
Theorem resolve_selection_shape
    (country_gdf sel : GeoDataFrame Country) (q : string) :
  resolve re_compile country_gdf q = Selected sel ->
  rows sel <> [] /\
  crs sel = crs country_gdf /\
  (exists keep, rows sel = filter keep (rows country_gdf)) /\
  forall f, In f (rows sel) ->
            In f (rows country_gdf) /\ TYPE (attrs f) <> "Dependency".
Proof.
  intro H.
  assert (Hdep := resolve_no_dependency re_compile country_gdf sel q H).
  unfold resolve in H. cbv zeta in H.
  assert (G : exists keep, sel = select keep country_gdf /\ empty sel = false).
  { destruct (empty (select (exact_match (strip q)) country_gdf)) eqn:E1.
    - destruct (str_contains re_compile (lower (strip q))) as [found|];
        [|discriminate].
      match type of H with
      | (if empty ?s then _ else _) = _ => destruct (empty s) eqn:E2
      end; [discriminate|].
      injection H as <-. eexists. split; [reflexivity | exact E2].
    - injection H as <-. eexists. split; [reflexivity | exact E1]. }
  destruct G as [keep [-> Hne]]. split.
  - unfold empty in Hne. destruct (rows (select keep country_gdf));
      [discriminate | discriminate].
  - split; [reflexivity|]. split; [now exists keep|].
    intros f Hf. split; [|now apply Hdep].
    cbn [select rows] in Hf. now apply filter_In in Hf.
Qed.

End ResolverShape.


Lemma resolve_exact_precedence_witness :
  exists sel,
    resolve (fun _ => None) states " mexico" = Selected sel /\
    rows sel =
      [country "Mexico" "Sovereign country" (Some (Polygon (square 0 (-5) 2)))].
Proof.
  destruct (resolve_exact_precedence (fun _ => None) states " mexico"
              (country "Mexico" "Sovereign country"
                 (Some (Polygon (square 0 (-5) 2)))))
    as [sel [H1 [_ [H2 _]]]].
  - simpl. auto.
  - reflexivity.
  - discriminate.
  - exists sel. split; [exact H1 | exact H2].
Defined.

Lemma resolve_selection_shape_witness :
  rows (mkFrame EPSG_4326
          [country "United States of America" "Country"
             (Some (Polygon (square 0 0 3)))]) <> [] /\
  EPSG_4326 = crs states.
Proof.
  destruct (resolve_selection_shape no_regex states
              (mkFrame EPSG_4326
                 [country "United States of America" "Country"
                    (Some (Polygon (square 0 0 3)))])
              "united states") as [H1 [H2 _]].
  - reflexivity.
  - split; [exact H1 | exact H2].
Defined.

(** ** The mainland is one of the selection's own parts *)





Section MainlandOrigin.

Variable transform : CRS -> CRS -> coord -> coord.
Variable area : Geometry -> Q.
Variable unary_union : list (option Geometry) -> Geometry.


End MainlandOrigin.



(** ** Size classes across a frame *)

Ltac bins_of x :=
  repeat match goal with
  | H : context [Qltb ?b x] |- _ =>
      let E := fresh "E" in
      destruct (Qltb b x) eqn:E;
      [apply Qltb_lt in E | apply Qltb_ge in E]
  end.

(** [pd.cut] never ranks a larger value in a smaller class. *)
Lemma cut1_monotone (x y : Q) (a b : SizeClass) :
  (x <= y)%Q ->
  cut1 size_bins size_labels x = Cat a ->
  cut1 size_bins size_labels y = Cat b ->
  (class_rank a <= class_rank b)%nat.
Proof.
  intros Hxy Hx Hy.
  unfold cut1, size_bins, size_labels in Hx, Hy.
  cbn [searchsorted_left length] in Hx, Hy.
  bins_of x; bins_of y; cbn in Hx, Hy;
    try discriminate; try (exfalso; lra);
    injection Hx as <-; injection Hy as <-; simpl; lia.
Qed.

Lemma class_linewidth_rank (a b : SizeClass) :
  (class_rank a <= class_rank b)%nat ->
  (class_linewidth a <= class_linewidth b)%Q.
Proof.
  destruct a, b; simpl; intro H; try lia; vm_compute; discriminate.
Qed.

Lemma searchsorted_left_Qeq (bins : list Q) (x y : Q) :
  (x == y)%Q -> searchsorted_left bins x = searchsorted_left bins y.
Proof.
  intro H. induction bins as [|b r IH]; simpl; [reflexivity|].
  assert (E : Qltb b x = Qltb b y).
  { unfold Qltb. f_equal.
    destruct (Qle_bool x b) eqn:E1, (Qle_bool y b) eqn:E2; try reflexivity.
    - apply Qle_bool_iff in E1. rewrite H in E1.
      apply Qle_bool_iff in E1. congruence.
    - apply Qle_bool_iff in E2. rewrite <- H in E2.
      apply Qle_bool_iff in E2. congruence. }
  rewrite E, IH. reflexivity.
Qed.

Lemma cut1_Qeq (bins : list Q) (labels : list SizeClass) (x y : Q) :
  (x == y)%Q -> cut1 bins labels x = cut1 bins labels y.
Proof.
  intro H. unfold cut1. now rewrite (searchsorted_left_Qeq bins x y H).
Qed.





Section ClassifierOrder.

Variable geom_length : Geometry -> Q.

Lemma classes_of_metric (rivers out : RiverFrame) (metric : list Q) :
  size_metric geom_length rivers = Some metric ->
  classify geom_length rivers = Some out ->
  size_classes out = cut (relative metric) size_bins size_labels /\
  length (river_rows out) = length metric.
Proof.
  intros Hm Hout.
  destruct (classify_from_metric geom_length rivers metric Hm)
    as [out' [Hout' [Hcls [Hrows _]]]].
  rewrite Hout in Hout'. injection Hout' as <-.
  split; [exact Hcls|].
  destruct (annotated_rows _ _ _ Hrows) as [Hlen _].
  rewrite Hlen. symmetry. now apply size_metric_length with geom_length.
Qed.

Lemma unit_quotient (m : Q) : (0 < m)%Q -> (m / m == 1)%Q.
Proof. intro H. field. lra. Qed.

Lemma quotient_in_unit (x m : Q) :
  (0 < m)%Q -> (0 <= x)%Q -> (x <= m)%Q -> (0 <= x / m)%Q /\ (x / m <= 1)%Q.
Proof.
  intros Hm H0 H1. split.
  - apply Qle_shift_div_l; [exact Hm | lra].
  - apply Qle_shift_div_r; [exact Hm | lra].
Qed.

Lemma cut1_unit_interval (v : Q) :
  (0 <= v)%Q -> (v <= 1)%Q -> exists c, cut1 size_bins size_labels v = Cat c.
Proof.
  intros H0 H1.
  destruct (Qlt_le_dec 0.33 v) as [Ha|Ha].
  - destruct (Qlt_le_dec 0.66 v) as [Hb|Hb].
    + exists large. apply cut1_large; lra.
    + exists medium. now apply cut1_medium.
  - exists small. apply cut1_small; lra.
Qed.

Lemma classed_when_nonnegative (rivers out : RiverFrame) (metric : list Q) (m : Q) :
  size_metric geom_length rivers = Some metric ->
  series_max metric = Some m -> (0 < m)%Q ->
  classify geom_length rivers = Some out ->
  forall i x, nth_error metric i = Some x -> (0 <= x)%Q ->
  exists c, nth_error (size_classes out) i = Some (Cat c).
Proof.
  intros Hm Hmax Hpos Hout i x Hx H0.
  destruct (classes_of_metric rivers out metric Hm Hout) as [Hcls _].
  destruct (series_max_spec metric m Hmax) as [_ Hle].
  assert (Hxm : (x <= m)%Q) by (apply Hle; eapply nth_error_In; eauto).
  destruct (quotient_in_unit x m Hpos H0 Hxm) as [Ha Hb].
  destruct (cut1_unit_interval (x / m) Ha Hb) as [c Hc].
  exists c. rewrite Hcls, (relative_positive metric m Hmax Hpos).
  unfold cut. rewrite map_map, nth_error_map, Hx. simpl. now rewrite Hc.
Qed.

(** X5: with a positive maximum, a river that carries the maximum is classed
    large, so the large class is never empty, and every river whose metric is
    not negative gets one of the three classes. *)
Theorem classify_maximum_is_large (rivers out : RiverFrame) (metric : list Q)
    (max_metric : Q) :
  size_metric geom_length rivers = Some metric ->
  series_max metric = Some max_metric -> (0 < max_metric)%Q ->
  classify geom_length rivers = Some out ->
  (exists i, nth_error metric i = Some max_metric /\
             nth_error (size_classes out) i = Some (Cat large)) /\
  (forall i x, nth_error metric i = Some x -> (0 <= x)%Q ->
     exists c, nth_error (size_classes out) i = Some (Cat c)).
Proof.
  intros Hm Hmax Hpos Hout. split.
  - destruct (series_max_spec metric max_metric Hmax) as [Hin _].
    apply In_nth_error in Hin. destruct Hin as [i Hi].
    exists i. split; [exact Hi|].
    destruct (classes_of_metric rivers out metric Hm Hout) as [Hcls _].
    rewrite Hcls, (relative_positive metric max_metric Hmax Hpos).
    unfold cut. rewrite map_map, nth_error_map, Hi. simpl. f_equal.
    now rewrite (cut1_Qeq _ _ _ 1%Q (unit_quotient max_metric Hpos)).
  - now apply (classed_when_nonnegative rivers out metric max_metric).
Qed.

(** X6: of two classed rivers, the one with the larger metric is never drawn
    with the thinner line. *)
Theorem larger_river_not_thinner (rivers out : RiverFrame) (metric : list Q)
    (i j : nat) (x y : Q) (a b : SizeClass) :
  size_metric geom_length rivers = Some metric ->
  classify geom_length rivers = Some out ->
  nth_error metric i = Some x -> nth_error metric j = Some y ->
  (x <= y)%Q ->
  nth_error (size_classes out) i = Some (Cat a) ->
  nth_error (size_classes out) j = Some (Cat b) ->
  (class_rank a <= class_rank b)%nat /\
  (class_linewidth a <= class_linewidth b)%Q.
Proof.
  intros Hm Hout Hx Hy Hxy Ha Hb.
  destruct (classes_of_metric rivers out metric Hm Hout) as [Hcls _].
  rewrite Hcls in Ha, Hb.
  assert (Hrank : (class_rank a <= class_rank b)%nat).
  { unfold relative in Ha, Hb.
    destruct (series_max metric) as [m|] eqn:Hmax.
    - destruct (Qltb 0 m) eqn:Hpos.
      + apply Qltb_lt in Hpos. unfold cut in Ha, Hb.
        rewrite map_map, nth_error_map in Ha, Hb. rewrite Hx in Ha. rewrite Hy in Hb.
        injection Ha as Ha. injection Hb as Hb.
        apply (cut1_monotone (x / m) (y / m)); [|exact Ha | exact Hb].
        apply Qmult_le_compat_r; [exact Hxy|].
        apply Qlt_le_weak, Qinv_lt_0_compat. exact Hpos.
      + rewrite (cut_nth _ _ _ Hx) in Ha. rewrite (cut_nth _ _ _ Hy) in Hb.
        injection Ha as Ha. injection Hb as Hb.
        now apply (cut1_monotone x y).
    - rewrite (cut_nth _ _ _ Hx) in Ha. rewrite (cut_nth _ _ _ Hy) in Hb.
      injection Ha as Ha. injection Hb as Hb.
      now apply (cut1_monotone x y). }
  split; [exact Hrank | now apply class_linewidth_rank].
Qed.


End ClassifierOrder.

Lemma classify_maximum_is_large_witness :
  exists i,
    nth_error [120; 1000; 40]%Q i = Some 1000%Q /\
    nth_error
      (cut (relative [120; 1000; 40]%Q) size_bins size_labels) i =
      Some (Cat large).
Proof.
  destruct (classify_maximum_is_large taxicab_length
              (rivers_with [Num 120; Num 1000; Num 40])
              (assign "_size_cat"
                 (cut (relative [120; 1000; 40]%Q) size_bins size_labels)
                 (rivers_with [Num 120; Num 1000; Num 40]))
              [120; 1000; 40]%Q 1000%Q) as [[i [H1 H2]] _];
    try reflexivity.
  exists i. split; [exact H1 | exact H2].
Defined.

Lemma larger_river_not_thinner_witness :
  (class_linewidth small <= class_linewidth large)%Q.
Proof.
  refine (proj2 (larger_river_not_thinner taxicab_length
                   (rivers_with [Num 10; Num 500; Num 1000])
                   (assign "_size_cat" [Cat small; Cat medium; Cat large]
                      (rivers_with [Num 10; Num 500; Num 1000]))
                   [10; 500; 1000]%Q 0 2 10%Q 1000%Q small large
                   _ _ _ _ _ _ _)); try reflexivity.
  discriminate.
Defined.


(** ** What is drawn *)

Lemma river_layers_rows (gdf : RiverFrame) :
  flat_map layer_rows (river_layers gdf) =
  filter (has_class small) (river_rows gdf) ++
  filter (has_class medium) (river_rows gdf) ++
  filter (has_class large) (river_rows gdf).
Proof.
  unfold river_layers, class_styles. cbn [flat_map fst snd].
  destruct (filter (has_class small) (river_rows gdf));
  destruct (filter (has_class medium) (river_rows gdf));
  destruct (filter (has_class large) (river_rows gdf)); simpl;
    rewrite ?app_nil_r; reflexivity.
Qed.

Lemma classes_partition (l : list River) :
  Permutation
    (filter (has_class small) l ++ filter (has_class medium) l ++
     filter (has_class large) l)
    (filter is_classed l).
Proof.
  induction l as [|r l IH]; simpl; [constructor|].
  unfold has_class, is_classed.
  destruct (get_field "_size_cat" (fields r)) as [|q|[| |]]; simpl;
    try exact IH.
  - now constructor.
  - etransitivity; [apply Permutation_sym, Permutation_middle|].
    now constructor.
  - rewrite app_assoc.
    etransitivity; [apply Permutation_sym, Permutation_middle|].
    rewrite <- app_assoc. now constructor.
Qed.

Lemma layer_members (gdf : RiverFrame) (l : Layer) :
  In l (river_layers gdf) ->
  exists c, layer_rows l = filter (has_class c) (river_rows gdf) /\
            layer_rows l <> [] /\
            style_linewidth (layer_style l) = class_linewidth c.
Proof.
  unfold river_layers. intro H. apply in_flat_map in H.
  destruct H as [[c st] [Hc H]]. cbn [fst snd] in H.
  destruct (filter (has_class c) (river_rows gdf)) as [|r rs] eqn:E;
    [destruct H|].
  destruct H as [<-|[]]. exists c. cbn [layer_rows layer_style].
  split; [now rewrite E|]. split; [discriminate|].
  unfold class_styles in Hc. simpl in Hc.
  destruct Hc as [Hc|[Hc|[Hc|[]]]]; injection Hc as <- <-; reflexivity.
Qed.

(** X8: the rivers handed to the plotting calls are exactly the classed rows of
    the frame, each in one layer only; a layer is never empty, there are at
    most three, and each draws its rivers with the width of their class.  A
    river without a class is in no layer: it is not drawn. *)
Theorem river_layers_partition (rivers_3857 : RiverFrame) :
  Permutation (flat_map layer_rows (river_layers rivers_3857))
              (filter is_classed (river_rows rivers_3857)) /\
  (length (river_layers rivers_3857) <= 3)%nat /\
  (forall l, In l (river_layers rivers_3857) -> layer_rows l <> []) /\
  (forall l r, In l (river_layers rivers_3857) -> In r (layer_rows l) ->
     exists c, get_field "_size_cat" (fields r) = Cat c /\
               style_linewidth (layer_style l) = class_linewidth c) /\
  (forall l r, In l (river_layers rivers_3857) ->
     get_field "_size_cat" (fields r) = NaN -> ~ In r (layer_rows l)).
Proof.
  split; [rewrite river_layers_rows; apply classes_partition|].
  split.
  { unfold river_layers, class_styles. cbn [flat_map fst snd].
    repeat match goal with
    | |- context [if ?b then _ else _] => destruct b
    end; simpl; lia. }
  assert (Hmem : forall l r, In l (river_layers rivers_3857) -> In r (layer_rows l) ->
            exists c, get_field "_size_cat" (fields r) = Cat c /\
                      style_linewidth (layer_style l) = class_linewidth c).
  { intros l r Hl Hr.
    destruct (layer_members rivers_3857 l Hl) as [c [Hrows [_ Hw]]].
    rewrite Hrows in Hr. apply filter_In in Hr. destruct Hr as [_ Hr].
    unfold has_class in Hr.
    destruct (get_field "_size_cat" (fields r)) as [|q|c'] eqn:E;
      try discriminate.
    exists c'. split; [reflexivity|].
    destruct c', c; try discriminate; exact Hw. }
  split.
  { intros l Hl. now destruct (layer_members rivers_3857 l Hl) as [c [_ [H _]]]. }
  split; [exact Hmem|].
  intros l r Hl Hnan Hr. destruct (Hmem l r Hl Hr) as [c [Hc _]]. congruence.
Qed.

Section Drawing.

Variable geom_length : Geometry -> Q.

(** X9: with a positive maximum and no negative metric, the layers drawn hold
    every river of the classified frame, each once. *)
Theorem every_river_drawn (rivers out : RiverFrame) (metric : list Q) (m : Q) :
  size_metric geom_length rivers = Some metric ->
  series_max metric = Some m -> (0 < m)%Q ->
  (forall x, In x metric -> (0 <= x)%Q) ->
  classify geom_length rivers = Some out ->
  Permutation (flat_map layer_rows (river_layers out)) (river_rows out) /\
  length (flat_map layer_rows (river_layers out)) = length (river_rows rivers).
Proof.
  intros Hm Hmax Hpos Hnn Hout.
  assert (Hall : filter is_classed (river_rows out) = river_rows out).
  { apply forallb_filter_id. apply forallb_forall. intros r Hr.
    apply In_nth_error in Hr. destruct Hr as [i Hi].
    destruct (classes_of_metric geom_length rivers out metric Hm Hout) as [_ Hlen].
    destruct (nth_error metric i) as [x|] eqn:Hx.
    - destruct (classed_when_nonnegative geom_length rivers out metric m
                  Hm Hmax Hpos Hout i x Hx) as [c Hc].
      { apply Hnn. eapply nth_error_In; eauto. }
      unfold size_classes, column in Hc. rewrite nth_error_map, Hi in Hc.
      injection Hc as Hc. unfold is_classed. now rewrite Hc.
    - apply nth_error_None in Hx.
      assert (i < length (river_rows out))%nat
        by (apply nth_error_Some; congruence).
      lia. }
  assert (Hperm : Permutation (flat_map layer_rows (river_layers out))
                              (river_rows out)).
  { pose proof (classes_partition (river_rows out)) as P.
    rewrite Hall in P. rewrite river_layers_rows. exact P. }
  split; [exact Hperm|].
  rewrite (Permutation_length Hperm).
  destruct (classes_of_metric geom_length rivers out metric Hm Hout) as [_ ->].
  now apply size_metric_length with geom_length.
Qed.

End Drawing.

Lemma every_river_drawn_witness :
  length
    (flat_map layer_rows
       (river_layers
          (assign "_size_cat" [Cat small; Cat medium; Cat large]
             (rivers_with [Num 10; Num 500; Num 1000])))) = 3%nat.
Proof.
  refine (proj2 (every_river_drawn taxicab_length
                   (rivers_with [Num 10; Num 500; Num 1000]) _
                   [10; 500; 1000]%Q 1000%Q _ _ _ _ _)); try reflexivity.
  intros x Hx. simpl in Hx.
  destruct Hx as [<-|[<-|[<-|[]]]]; discriminate.
Defined.

(** ** The view window and the basemap zoom *)

Lemma axis_buffer_positive (lo hi : Q) : (0 < axis_buffer lo hi)%Q.
Proof.
  unfold axis_buffer. destruct (Qltb 0 (hi - lo)) eqn:E.
  - apply Qltb_lt in E. nra.
  - reflexivity.
Qed.

(** X10: the axis limits always leave a margin around the bounds: the window
    strictly contains an extent [lo <= hi], so it is never flat, and a
    country reduced to a point gets 10 km on each side. *)
Theorem axis_limits_contain (lo hi : Q) :
  (lo <= hi)%Q ->
  (fst (axis_limits lo hi) < lo)%Q /\
  (hi < snd (axis_limits lo hi))%Q /\
  (fst (axis_limits lo hi) < snd (axis_limits lo hi))%Q /\
  (lo == hi ->
   snd (axis_limits lo hi) - fst (axis_limits lo hi) == 20000)%Q.
Proof.
  intro H. pose proof (axis_buffer_positive lo hi) as Hb.
  unfold axis_limits. cbn [fst snd]. repeat split; try lra.
  intro E. unfold axis_buffer.
  destruct (Qltb 0 (hi - lo)) eqn:E0.
  - apply Qltb_lt in E0. lra.
  - lra.
Qed.

Ltac zoom_cases w :=
  repeat match goal with
  | |- context [Qle_bool w ?b] =>
      let E := fresh "E" in
      destruct (Qle_bool w b) eqn:E;
      [apply Qle_bool_iff in E | apply Qltb_lt in E]
  | |- context [Qltb ?b w] =>
      let E := fresh "E" in
      destruct (Qltb b w) eqn:E;
      [apply Qltb_lt in E | apply Qltb_ge in E]
  end.

Lemma Qle_bool_false_lt (a b : Q) : Qle_bool a b = false -> Qltb b a = true.
Proof. intro H. unfold Qltb. now rewrite H. Qed.

(** X11: the basemap zoom lies between 4 and 10 and never grows with the width of
    the country: among positive widths, the wider country gets the coarser
    tiles. *)
Theorem basemap_zoom_monotone (w1 w2 : Q) :
  (0 < w1)%Q -> (w1 <= w2)%Q ->
  (basemap_zoom w2 <= basemap_zoom w1)%nat /\
  (4 <= basemap_zoom w2)%nat /\ (basemap_zoom w1 <= 10)%nat.
Proof.
  intros H0 H12. unfold basemap_zoom.
  destruct (Qle_bool w1 0) eqn:A1;
    [apply Qle_bool_iff in A1; lra | apply Qle_bool_false_lt, Qltb_lt in A1].
  destruct (Qle_bool w2 0) eqn:A2;
    [apply Qle_bool_iff in A2; lra | apply Qle_bool_false_lt, Qltb_lt in A2].
  zoom_cases w1; zoom_cases w2; try (exfalso; lra); repeat split; lia.
Qed.

Lemma basemap_zoom_monotone_witness :
  (basemap_zoom 6000000 <= basemap_zoom 300000)%nat.
Proof.
  refine (proj1 (basemap_zoom_monotone 300000 6000000 _ _));
    reflexivity || discriminate.
Defined.

Lemma axis_limits_contain_witness :
  (fst (axis_limits 7 7) < snd (axis_limits 7 7))%Q.
Proof.
  refine (proj1 (proj2 (proj2 (axis_limits_contain 7 7 _)))). discriminate.
Defined.

(** ** Output names *)








(** ** The download cache *)

Lemma fs_read_write_same (fs : FileSystem) (path content : string) :
  fs_read (fs_write fs path content) path = Some content.
Proof.
  induction fs as [|[p c] r IH]; simpl.
  - now rewrite String.eqb_refl.
  - destruct (String.eqb p path) eqn:E; simpl; rewrite E; [reflexivity | exact IH].
Qed.

Lemma fs_read_write_other (fs : FileSystem) (path content q : string) :
  q <> path -> fs_read (fs_write fs path content) q = fs_read fs q.
Proof.
  intro Hq. induction fs as [|[p c] r IH]; simpl.
  - destruct (String.eqb_spec path q); [congruence | reflexivity].
  - destruct (String.eqb_spec p path) as [->|Hp]; simpl.
    + destruct (String.eqb_spec path q); [congruence | reflexivity].
    + now rewrite IH.
Qed.

Lemma fs_exists_write (fs : FileSystem) (path content : string) :
  fs_exists (fs_write fs path content) path = true.
Proof. unfold fs_exists. now rewrite fs_read_write_same. Qed.

Lemma download_cached (D : string) (net : string -> fetched)
    (url filename : string) (fs : FileSystem) :
  fs_exists fs (path_join D filename) = true ->
  download_and_save D net url filename fs = (fs, Return (path_join D filename)).
Proof. intro H. unfold download_and_save. now rewrite H. Qed.

(** X13: once [download_and_save] has returned for a file name, the file exists
    and any later call for that name, whatever the URL and whatever the
    network does, returns the same path and leaves the files as they are;
    the first call touched no other file. *)
Theorem download_and_save_idempotent (D : string) (net net' : string -> fetched)
    (url url' filename : string) (fs fs' : FileSystem) (filepath : string) :
  download_and_save D net url filename fs = (fs', Return filepath) ->
  filepath = path_join D filename /\
  fs_exists fs' filepath = true /\
  (forall q, q <> filepath -> fs_read fs' q = fs_read fs q) /\
  download_and_save D net' url' filename fs' = (fs', Return filepath).
Proof.
  intro H. unfold download_and_save in H. cbv zeta in H.
  destruct (fs_exists fs (path_join D filename)) eqn:E; cbn [negb] in H.
  - injection H as <- <-. repeat split; try assumption.
    now apply download_cached.
  - destruct (net url) as [|status chunks complete]; [discriminate|].
    destruct (is_error_status status); [discriminate|].
    destruct complete; [|discriminate].
    injection H as <- <-.
    split; [reflexivity|]. split; [apply fs_exists_write|].
    split; [intros q Hq; now apply fs_read_write_other|].
    apply download_cached, fs_exists_write.
Qed.

(** X14: for a file not yet there: without a connection, or on an HTTP error
    status, [download_and_save] raises and writes nothing, so a later call
    tries again; when the stream breaks after a good status it raises too,
    but the chunks received stay on disk under the final name, and every
    later call returns that partial file as the download. *)
Theorem download_and_save_failures (D : string) (net : string -> fetched)
    (url filename : string) (fs : FileSystem) :
  fs_exists fs (path_join D filename) = false ->
  (net url = Unreachable ->
   download_and_save D net url filename fs = (fs, Raise ConnectionError)) /\
  (forall status chunks complete,
     net url = Answer status chunks complete ->
     is_error_status status = true ->
     download_and_save D net url filename fs = (fs, Raise (HTTPError status))) /\
  (forall status chunks,
     net url = Answer status chunks false ->
     is_error_status status = false ->
     exists fs',
       download_and_save D net url filename fs =
         (fs', Raise ChunkedEncodingError) /\
       fs_read fs' (path_join D filename) = Some (join_chunks chunks) /\
       forall net' url',
         download_and_save D net' url' filename fs' =
           (fs', Return (path_join D filename))).
Proof.
  intro E. unfold download_and_save. cbv zeta. rewrite E. cbn [negb].
  split; [intros ->; reflexivity|]. split.
  - intros status chunks complete -> ->. reflexivity.
  - intros status chunks -> ->. eexists. split; [reflexivity|].
    split; [apply fs_read_write_same|].
    intros net' url'. fold (download_and_save D net' url' filename
      (fs_write fs (path_join D filename) (join_chunks chunks))).
    apply download_cached, fs_exists_write.
Qed.

(** X15: [download_and_extract] of the script checks no status: the body of any
    answer that arrives whole, an error page included, is stored under the
    base name of the URL, and every later call keeps that file and reports
    it as downloaded without fetching. *)
Theorem download_and_extract_keeps_any_body (data_folder : string)
    (net : string -> fetched) (url : string) (fs : FileSystem)
    (status : nat) (chunks : list string) :
  let filename := path_join data_folder (basename url) in
  fs_exists fs filename = false ->
  net url = Answer status chunks true ->
  exists fs',
    download_and_extract data_folder net url fs =
      (fs', Return [("Downloaded " ++ filename)%string]) /\
    fs_read fs' filename = Some (join_chunks chunks) /\
    forall net',
      download_and_extract data_folder net' url fs' =
        (fs', Return [("Downloaded " ++ filename)%string]).
Proof.
  intros filename E Hnet. unfold download_and_extract. cbv zeta.
  fold filename. rewrite E, Hnet. cbn [negb].
  eexists. split; [reflexivity|]. split; [apply fs_read_write_same|].
  intro net'. now rewrite fs_exists_write.
Qed.

Lemma download_and_save_idempotent_witness :
  download_and_save "/srv/data" net_down "https://host/other" "rivers.gpkg"
    [("/srv/data/rivers.gpkg", "PKdata")] =
  ([("/srv/data/rivers.gpkg", "PKdata")], Return "/srv/data/rivers.gpkg").
Proof.
  refine (proj2 (proj2 (proj2
    (download_and_save_idempotent "/srv/data" net_ok net_down
       "https://host/rivers" "https://host/other" "rivers.gpkg" [] _ _ _))));
    reflexivity.
Defined.

Lemma download_and_save_failures_witness :
  download_and_save "/srv/data" net_404 "https://host/rivers" "rivers.gpkg" [] =
  ([], Raise (HTTPError 404)).
Proof.
  refine (proj1 (proj2
    (download_and_save_failures "/srv/data" net_404 "https://host/rivers"
       "rivers.gpkg" [] _)) 404%nat ["Not Found"] true _ _); reflexivity.
Defined.

Lemma download_and_extract_keeps_any_body_witness :
  exists fs',
    download_and_extract "find_river_map/data" net_404
      "https://host/hydrosheds/hydrorivers_100.gpkg" [] =
      (fs', Return ["Downloaded find_river_map/data/hydrorivers_100.gpkg"]) /\
    fs_read fs' "find_river_map/data/hydrorivers_100.gpkg" = Some "Not Found".
Proof.
  destruct (download_and_extract_keeps_any_body "find_river_map/data" net_404
              "https://host/hydrosheds/hydrorivers_100.gpkg" [] 404
              ["Not Found"]) as [fs' [H1 [H2 _]]]; try reflexivity.
  exists fs'. split; [exact H1 | exact H2].
Defined.

(** ** The pipeline and the request handler *)








Section ApplicationFacts.

Variable DATA_FOLDER OUTPUT_FOLDER : string.
Variable net : string -> fetched.
Variable re_compile : string -> option (string -> bool).
Variable transform : CRS -> CRS -> coord -> coord.
Variable area : Geometry -> Q.
Variable unary_union : list (option Geometry) -> Geometry.
Variable geom_length : Geometry -> Q.
Variable read_countries : string -> result (GeoDataFrame Country).
Variable read_rivers : string -> option Geometry -> result RiverFrame.
Variable total_bounds : list (option Geometry) -> option (Q * Q * Q * Q).
Variable add_basemap : string -> nat -> bool.
Variable savefig : Figure -> string -> result string.
Variable library_str : exn -> string.

Local Abbreviation the_pipeline :=
  (generate_country_map DATA_FOLDER OUTPUT_FOLDER net re_compile transform area
     unary_union geom_length read_countries read_rivers total_bounds
     add_basemap savefig).
Local Abbreviation the_route :=
  (generate DATA_FOLDER OUTPUT_FOLDER net re_compile transform area
     unary_union geom_length read_countries read_rivers total_bounds
     add_basemap savefig library_str).
Local Abbreviation the_plot :=
  (plot_stylish_map OUTPUT_FOLDER transform geom_length total_bounds
     add_basemap savefig).
Local Abbreviation countries_path := (path_join DATA_FOLDER COUNTRIES_FILE).
Local Abbreviation rivers_path := (path_join DATA_FOLDER HYDRORIVERS_FILE).

(** X16: a submission without a country, or with blank text only, is answered
    with the request to select one: the pipeline is not entered, nothing is
    fetched and no file is written, whatever the network and the datasets. *)
Theorem generate_blank_submission (form_country : option string)
    (fs : FileSystem) :
  blank (match form_country with Some v => v | None => EmptyString end) = true ->
  the_route form_country fs = (fs, Redirect "Please select a country.").
Proof.
  intro H. unfold generate. cbv zeta. now rewrite (strip_blank _ H).
Qed.




End ApplicationFacts.

Section ApplicationOutputs.

Variable DATA_FOLDER OUTPUT_FOLDER : string.
Variable net : string -> fetched.
Variable re_compile : string -> option (string -> bool).
Variable transform : CRS -> CRS -> coord -> coord.
Variable area : Geometry -> Q.
Variable unary_union : list (option Geometry) -> Geometry.
Variable geom_length : Geometry -> Q.
Variable read_countries : string -> result (GeoDataFrame Country).
Variable read_rivers : string -> option Geometry -> result RiverFrame.
Variable total_bounds : list (option Geometry) -> option (Q * Q * Q * Q).
Variable add_basemap : string -> nat -> bool.
Variable savefig : Figure -> string -> result string.
Variable library_str : exn -> string.

Local Abbreviation the_route :=
  (generate DATA_FOLDER OUTPUT_FOLDER net re_compile transform area
     unary_union geom_length read_countries read_rivers total_bounds
     add_basemap savefig library_str).
Local Abbreviation the_plot :=
  (plot_stylish_map OUTPUT_FOLDER transform geom_length total_bounds
     add_basemap savefig).
Local Abbreviation countries_path := (path_join DATA_FOLDER COUNTRIES_FILE).
Local Abbreviation rivers_path := (path_join DATA_FOLDER HYDRORIVERS_FILE).


End ApplicationOutputs.

Lemma generate_blank_submission_witness :
  generate "/srv/data" "/srv/output" net_down no_regex equirect planar_area
    gather_union taxicab_length read_states read_three_rivers unit_bounds
    no_basemap save_title class_name (Some "   ") [] =
  ([], Redirect "Please select a country.").
Proof.
  apply (generate_blank_submission "/srv/data" "/srv/output" net_down no_regex
           equirect planar_area gather_union taxicab_length read_states
           read_three_rivers unit_bounds no_basemap save_title class_name
           (Some "   ") []).
  reflexivity.
Defined.



(** ** Saving with retries *)

Ltac ladder_leaf :=
  cbn;
  repeat match goal with
  | |- _ /\ _ => split
  | |- _ <-> _ => split
  end;
  try reflexivity; try lia; try discriminate;
  try (intros _; split; reflexivity);
  try (intros; congruence);
  try (intros; split; [reflexivity | split; intros; congruence]);
  try (intros _; eexists; split; [reflexivity | assumption]);
  try (intros [call [Hn Hw]]; cbn in Hn; injection Hn as <-; congruence);
  try (intros [|[|[|i]]] call Hi Hn; cbn in Hi, Hn;
       try lia; try discriminate; injection Hn as <-; congruence).

(** X19: however [savefig] behaves, the first attempt is at 300 dpi with a
    tight bounding box; if it writes the file, or fails with anything but a
    [ValueError], it is the only one; a [ValueError] there leads to a second
    attempt at 150 dpi without the tight box, and any failure of that one to
    a third at 100 dpi on a figure resized to 10 by 6 inches, after which
    nothing more is tried.  The figure is closed once, after the last
    attempt, and "Saved" is printed, and the function returns, exactly when
    the last attempt wrote the file. *)
Theorem save_png_ladder (savefig : SaveCall -> save_outcome) :
  let first := mkSave true 300 (12, 12)%nat in
  let second := mkSave false 150 (12, 12)%nat in
  let third := mkSave false 100 (10, 6)%nat in
  let trace := fst (save_png savefig) in
  let returned := snd (save_png savefig) in
  let calls := attempts_of trace in
  trace = map Attempt calls ++
          CloseFigure :: (if returned then [PrintSaved] else []) /\
  (savefig first = Written -> calls = [first] /\ returned = true) /\
  (savefig first = SaveOtherError -> calls = [first] /\ returned = false) /\
  (savefig first = SaveValueError -> savefig second = Written ->
   calls = [first; second] /\ returned = true) /\
  (savefig first = SaveValueError -> savefig second <> Written ->
   calls = [first; second; third] /\
   (returned = true <-> savefig third = Written)) /\
  (1 <= length calls <= 3)%nat /\
  (returned = true <->
   exists call, nth_error calls (length calls - 1) = Some call /\
                savefig call = Written) /\
  (forall i call, (S i < length calls)%nat -> nth_error calls i = Some call ->
                  savefig call <> Written).
Proof.
  unfold save_png. cbv zeta.
  destruct (savefig (mkSave true 300 (12, 12)%nat)) eqn:E1;
    [ladder_leaf | | ladder_leaf].
  destruct (savefig (mkSave false 150 (12, 12)%nat)) eqn:E2;
    [ladder_leaf | |];
    destruct (savefig (mkSave false 100 (10, 6)%nat)) eqn:E3; ladder_leaf.
Qed.
